(** * local-db: the per-collection document engine

    A shallow embedding of [lib/collection.js] and [lib/utils.js]:
    identifier sanitisation, [set]/[get]/[del] with backup on write failure
    and repair on read, the [match]/[like] predicates and the scan [all].

    JavaScript values are a tagged union, asynchronous functions are state
    passing functions over an in-memory file system, and a thrown exception
    is the [Throw] branch of a result. *)

From Stdlib Require Import Floats.
From Stdlib Require Import Ascii.
From stdpp Require Import base strings gmap list pretty.

Set Warnings "-register-all".
Local Open Scope string_scope.

(** ** JavaScript strings

    A string is a sequence of code units; this development covers the code
    units below 256 (Latin-1), which is what [ascii] holds. *)

Module JsString.

(** The character [U+0022], written by its code. *)
Definition dquote : ascii := "034"%char.

(** [s.replace(/[cls]/g, by)]: every code unit of the class is replaced. *)
Fixpoint replaceAll (cls : ascii → bool) (by_ : string) (s : string) : string :=
  match s with
  | EmptyString => EmptyString
  | String c rest =>
      if cls c then by_ +:+ replaceAll cls by_ rest
      else String c (replaceAll cls by_ rest)
  end.

(** [s.includes(sub)] *)
Fixpoint includes (s sub : string) : bool :=
  String.prefix sub s ||
  match s with
  | EmptyString => false
  | String _ rest => includes rest sub
  end.

(** [s.endsWith(suffix)] *)
Definition endsWith (s suffix : string) : bool :=
  let n := String.length s in
  let m := String.length suffix in
  (m <=? n)%nat && String.eqb (String.substring (n - m) m s) suffix.

(** White space as [String.prototype.trim] sees it, below 256:
    TAB, LF, VT, FF, CR, SP and NBSP. *)
Definition is_whitespace (c : ascii) : bool :=
  let n := nat_of_ascii c in
  ((9 <=? n) && (n <=? 13) || (n =? 32) || (n =? 160))%nat.

Fixpoint forall_chars (p : ascii → bool) (s : string) : bool :=
  match s with
  | EmptyString => true
  | String c rest => p c && forall_chars p rest
  end.

(** [s.trim() === ''] *)
Definition trim_is_empty (s : string) : bool := forall_chars is_whitespace s.

(** [toLowerCase] on one code unit: A-Z and the Latin-1 capitals
    U+00C0..U+00DE (without the multiplication sign U+00D7) move by 32. *)
Definition lower_char (c : ascii) : ascii :=
  let n := nat_of_ascii c in
  if ((65 <=? n) && (n <=? 90) ||
      (192 <=? n) && (n <=? 222) && negb (n =? 215))%nat
  then ascii_of_nat (n + 32) else c.

Fixpoint toLowerCase (s : string) : string :=
  match s with
  | EmptyString => EmptyString
  | String c rest => String (lower_char c) (toLowerCase rest)
  end.

End JsString.

(** ** JavaScript values *)

(** What [JSON.parse] produces, and what queries are written with.  The
    properties of a [JObject] are its own enumerable properties in the order
    [for ... in] visits them; an object has each key once. *)
Inductive value : Type :=
| JNull
| JBool (b : bool)
| JNumber (n : float)
| JString (s : string)
| JArray (items : list value)
| JObject (props : list (string * value)).

(** Exceptions.  [SystemError] is what [node:fs] rejects with (it carries a
    [code]); [JSON.parse] throws [SyntaxError]; [Error] is [new Error(msg)],
    which is also how the repair library fails. *)
Inductive js_error : Type :=
| Error (message : string)
| SyntaxError (message : string)
| TypeError (message : string)
| SystemError (code message : string).

Definition message (e : js_error) : string :=
  match e with
  | Error m | SyntaxError m | TypeError m | SystemError _ m => m
  end.

(** [e.code] *)
Definition code (e : js_error) : option string :=
  match e with
  | SystemError c _ => Some c
  | _ => None
  end.

Definition is_ENOENT (e : js_error) : bool :=
  match code e with
  | Some c => String.eqb c "ENOENT"
  | None => false
  end.

Definition is_SyntaxError (e : js_error) : bool :=
  match e with
  | SyntaxError _ => true
  | _ => false
  end.

Inductive result (A : Type) : Type :=
| Ok (a : A)
| Throw (e : js_error).
Arguments Ok {A} a.
Arguments Throw {A} e.

Module Js.

(** [typeof v !== 'object' || v === null] *)
Definition is_primitive (v : value) : bool :=
  match v with
  | JArray _ | JObject _ => false
  | _ => true
  end.

(** [!!v] *)
Definition truthy (v : value) : bool :=
  match v with
  | JNull => false
  | JBool b => b
  | JNumber n => negb (PrimFloat.is_zero n || PrimFloat.is_nan n)
  | JString s => negb (String.eqb s EmptyString)
  | JArray _ | JObject _ => true
  end.

(** [a === b] where at least one side is a primitive.  Objects and arrays
    are compared by identity, and a document never shares an object with a
    query, so they are never equal. *)
Definition strict_equals (a b : value) : bool :=
  match a, b with
  | JNull, JNull => true
  | JBool x, JBool y => Bool.eqb x y
  | JNumber x, JNumber y => PrimFloat.eqb x y
  | JString x, JString y => String.eqb x y
  | _, _ => false
  end.

(** SameValueZero, the comparison of [Array.prototype.includes]: as
    [===], but NaN equals NaN. *)
Definition same_value_zero (a b : value) : bool :=
  match a, b with
  | JNumber x, JNumber y =>
      PrimFloat.eqb x y || (PrimFloat.is_nan x && PrimFloat.is_nan y)
  | _, _ => strict_equals a b
  end.

(** [items.includes(q)] *)
Definition array_includes (items : list value) (q : value) : bool :=
  existsb (fun item => same_value_zero item q) items.

(** The own property [key] of an object, if it has one. *)
Fixpoint own_property (props : list (string * value)) (key : string)
  : option value :=
  match props with
  | [] => None
  | (k, v) :: rest => if String.eqb k key then Some v else own_property rest key
  end.

(** [receiver.hasOwnProperty(key)] on an object parsed from JSON.  The
    method is looked up on the object first: an object that has an own
    property named [hasOwnProperty] hides the inherited method behind a JSON
    value, and calling that is a [TypeError]. *)
Definition hasOwnProperty (receiver : string) (props : list (string * value))
    (key : string) : result bool :=
  match own_property props "hasOwnProperty" with
  | Some _ => Throw (TypeError (receiver +:+ ".hasOwnProperty is not a function"))
  | None => Ok (bool_decide (is_Some (own_property props key)))
  end.

End Js.

(** ** Induction on values *)

Section ValueInduction.
Variable P : value → Prop.
Hypothesis HNull : P JNull.
Hypothesis HBool : ∀ b, P (JBool b).
Hypothesis HNumber : ∀ n, P (JNumber n).
Hypothesis HString : ∀ s, P (JString s).
Hypothesis HArray : ∀ items, Forall P items → P (JArray items).
Hypothesis HObject : ∀ props, Forall (fun kv => P kv.2) props → P (JObject props).

Fixpoint value_nested_ind (v : value) : P v :=
  match v with
  | JNull => HNull
  | JBool b => HBool b
  | JNumber n => HNumber n
  | JString s => HString s
  | JArray items =>
      HArray items
        ((fix go (l : list value) : Forall P l :=
            match l with
            | [] => @List.Forall_nil _ P
            | x :: l' => @List.Forall_cons _ P x l' (value_nested_ind x) (go l')
            end) items)
  | JObject props =>
      HObject props
        ((fix go (l : list (string * value)) : Forall (fun kv => P kv.2) l :=
            match l with
            | [] => @List.Forall_nil _ _
            | kv :: l' => @List.Forall_cons _ _ kv l' (value_nested_ind kv.2) (go l')
            end) props)
  end.
End ValueInduction.

(** ** The platform

    What the program takes from the language and from its one dependency:
    [JSON.parse], [JSON.stringify(v, null, 2)] on JSON values, the string a
    number is written as, the [jsonrepair] function, [path.join] and
    [path.dirname] on directory names, and the way the message of an error
    shows a string ([util.inspect]). *)
Class Platform : Type := {
  JSON_parse : string → result value;
  JSON_stringify : value → string;
  Number_toString : float → string;
  jsonrepair : string → result string;
  path_join : list string → string;
  path_dirname : string → string;
  inspect : string → string;
}.

(** [path.join(dir, name)] for a file [name] inside the directory [dir].
    Every name the program joins this way is free of separators and is
    neither [.] nor [..], so the pair is the normalised path. *)
Record path : Type := Path { dirname : string; basename : string }.

Definition path_text `{Platform} (p : path) : string :=
  path_join [dirname p; basename p].

(** ** The world: file system, clock and console *)

(** What [writeFile] is given as its data: a string, or [undefined]. *)
Definition js_text : Type := option string.

Definition text_of (s : string) : js_text := Some s.
Coercion text_of : string >-> js_text.

Inductive fs_call : Type :=
| WriteFile (p : path) (data : js_text)
| ReadFile (p : path)
| Unlink (p : path)
| Readdir (dir : string)
| Mkdir (dir : string)
| Stat (dir : string).

Inductive log_level : Type := Warn | Err.

(** [dirs] maps every directory that exists to its regular files, name to
    text.  [denied] are the paths the operating system refuses to create
    or to change ([EACCES]): a directory in it cannot be made and takes no
    new entry and loses none, a file in it cannot be written.  [now] is the
    clock of [Date.now()], in milliseconds.  [calls] is the trace of file
    system calls made so far and [console] what was logged. *)
Record World : Type := mkWorld {
  dirs : gmap string (gmap string string);
  denied : gset string;
  now : Z;
  calls : list fs_call;
  console : list (log_level * string);
}.

Definition with_dirs (d : gmap string (gmap string string)) (w : World) : World :=
  mkWorld d (denied w) (now w) (calls w) (console w).

Definition traced (c : fs_call) (w : World) : World :=
  mkWorld (dirs w) (denied w) (now w) (calls w ++ [c]) (console w).

Definition logged (l : log_level) (msg : string) (w : World) : World :=
  mkWorld (dirs w) (denied w) (now w) (calls w) (console w ++ [(l, msg)]).

(** The text of the file [p], if there is one. *)
Definition file_at (w : World) (p : path) : option string :=
  dirs w !! dirname p ≫= (.!! basename p).

(** An asynchronous function: it runs against the world and settles with a
    value or a rejection. *)
Definition M (A : Type) : Type := World → result A * World.

Definition ret {A} (a : A) : M A := fun w => (Ok a, w).

Definition throw {A} (e : js_error) : M A := fun w => (Throw e, w).

Definition bind {A B} (c : M A) (k : A → M B) : M B :=
  fun w =>
    match c w with
    | (Ok a, w') => k a w'
    | (Throw e, w') => (Throw e, w')
    end.

(** [try { c } catch(e) { handler e }] *)
Definition try_catch {A} (c : M A) (handler : js_error → M A) : M A :=
  fun w =>
    match c w with
    | (Ok a, w') => (Ok a, w')
    | (Throw e, w') => handler e w'
    end.

(** A synchronous computation that may throw. *)
Definition lift {A} (r : result A) : M A := fun w => (r, w).

Notation "'let*' x ':=' c 'in' k" := (bind c (fun x => k))
  (at level 10, x name, c at level 100, k at level 200).
Notation "c ';;' k" := (bind c (fun _ => k))
  (at level 100, k at level 200, right associativity).

(** [w'] has the directories, permissions and clock of [w]; the trace and
    the console may have grown. *)
Definition frame (w w' : World) : Prop :=
  dirs w' = dirs w ∧ denied w' = denied w ∧ now w' = now w.

(** [w'] is [w] with, possibly, more directories, each of them empty: the
    permissions, the clock and the console are those of [w] and every
    directory of [w] holds the files it held. *)
Definition grown (w w' : World) : Prop :=
  denied w' = denied w ∧ now w' = now w ∧ console w' = console w
  ∧ (∀ d files, dirs w !! d = Some files → dirs w' !! d = Some files)
  ∧ (∀ d files, dirs w' !! d = Some files → dirs w !! d = Some files ∨ files = ∅).

Module console.
Definition warn (msg : string) : M unit := fun w => (Ok tt, logged Warn msg w).
Definition error (msg : string) : M unit := fun w => (Ok tt, logged Err msg w).
End console.

(** [Date.now()] *)
Definition Date_now : M Z := fun w => (Ok (now w), w).

(** [node:fs/promises] on the in-memory file system.

    A file of the map exists, so the system took its name and every call
    finds it; the names the system refuses (a NUL code unit anywhere in
    the path, a name of more than 255 bytes in UTF-8) are refused where a
    call would have to make or to look for the entry, and so is a path
    that runs through a regular file.  Reads are not refused: [readFile]
    and [readdir] answer [ENOENT] for all that is not in the map. *)
Module fsp.
Section Fsp.
Context `{Platform}.

Definition ENOENT (syscall : string) (target : string) : js_error :=
  SystemError "ENOENT"
    ("ENOENT: no such file or directory, " +:+ syscall +:+ " '" +:+ target +:+ "'").

Definition EACCES (syscall : string) (target : string) : js_error :=
  SystemError "EACCES"
    ("EACCES: permission denied, " +:+ syscall +:+ " '" +:+ target +:+ "'").

Definition EEXIST (syscall : string) (target : string) : js_error :=
  SystemError "EEXIST"
    ("EEXIST: file already exists, " +:+ syscall +:+ " '" +:+ target +:+ "'").

Definition ENOTDIR (syscall : string) (target : string) : js_error :=
  SystemError "ENOTDIR"
    ("ENOTDIR: not a directory, " +:+ syscall +:+ " '" +:+ target +:+ "'").

Definition EISDIR (syscall : string) (target : string) : js_error :=
  SystemError "EISDIR"
    ("EISDIR: illegal operation on a directory, " +:+ syscall +:+ " '" +:+ target +:+ "'").

Definition ENAMETOOLONG (syscall : string) (target : string) : js_error :=
  SystemError "ENAMETOOLONG"
    ("ENAMETOOLONG: name too long, " +:+ syscall +:+ " '" +:+ target +:+ "'").

(** The [TypeError] for a path with a NUL code unit; it carries a code. *)
Definition ERR_INVALID_ARG_VALUE (target : string) : js_error :=
  SystemError "ERR_INVALID_ARG_VALUE"
    ("The argument 'path' must be a string, Uint8Array, or URL without null bytes. Received "
     +:+ inspect target).

(** The [TypeError] for [writeFile(path, undefined)]. *)
Definition ERR_INVALID_ARG_TYPE : js_error :=
  SystemError "ERR_INVALID_ARG_TYPE"
    ("The " +:+ String JsString.dquote ("data" +:+ String JsString.dquote
     " argument must be of type string or an instance of Buffer, TypedArray, or DataView. Received undefined")).

Definition has_nul (s : string) : bool :=
  negb (JsString.forall_chars (fun c => negb (Ascii.eqb c "000")) s).

(** The length of [s] in UTF-8: a code unit below 128 takes one byte, the
    others (below 256) two. *)
Fixpoint utf8_length (s : string) : nat :=
  match s with
  | EmptyString => 0
  | String c rest =>
      (if (nat_of_ascii c <? 128)%nat then 1 else 2) + utf8_length rest
  end.

Definition too_long (name : string) : bool := (255 <? utf8_length name)%nat.


(** A regular file holds the path [target]. *)
Definition is_file (w : World) (target : string) : bool :=
  existsb
    (fun entry : string * gmap string string =>
       existsb (fun name => String.eqb (path_join [entry.1; name]) target)
         (map_to_list entry.2).*1)
    (map_to_list (dirs w)).

(** A root is what [path.dirname] gives back unchanged. *)
Definition is_root (dir : string) : bool := String.eqb (path_dirname dir) dir.

(** The ancestors of [dir] below the root, the outermost first.  A path
    has fewer ancestors than code units. *)
Fixpoint ancestors (fuel : nat) (dir : string) : list string :=
  match fuel with
  | O => []
  | S fuel' =>
      let parent := path_dirname dir in
      if is_root dir || is_root parent then []
      else (ancestors fuel' parent ++ [parent])%list
  end.

(** The directories [mkdir] walks with [recursive: true]: the ancestors of
    [dir], then [dir] itself.  The root is there. *)
Definition lineage (dir : string) : list string :=
  (ancestors (String.length dir) dir ++ [dir])%list.

(** A regular file is in the place of the directory [dir] or of one above
    it. *)
Definition blocked (w : World) (dir : string) : bool :=
  existsb (is_file w) (lineage dir).

Definition writeFile (p : path) (data : js_text) : M unit :=
  fun w0 =>
    let w := traced (WriteFile p data) w0 in
    match data with
    | None => (Throw ERR_INVALID_ARG_TYPE, w)
    | Some text =>
        let written files :=
          with_dirs (<[dirname p := <[basename p := text]> files]> (dirs w)) w in
        match dirs w !! dirname p with
        | Some files =>
            match files !! basename p with
            | Some _ =>
                if bool_decide (path_text p ∈ denied w)
                then (Throw (EACCES "open" (path_text p)), w)
                else (Ok tt, written files)
            | None =>
                if has_nul (path_text p)
                then (Throw (ERR_INVALID_ARG_VALUE (path_text p)), w)
                else if bool_decide (is_Some (dirs w !! path_text p))
                then (Throw (EISDIR "open" (path_text p)), w)
                else if too_long (basename p)
                then (Throw (ENAMETOOLONG "open" (path_text p)), w)
                else if bool_decide (dirname p ∈ denied w)
                then (Throw (EACCES "open" (path_text p)), w)
                else (Ok tt, written files)
            end
        | None =>
            if has_nul (path_text p)
            then (Throw (ERR_INVALID_ARG_VALUE (path_text p)), w)
            else if blocked w (dirname p)
            then (Throw (ENOTDIR "open" (path_text p)), w)
            else (Throw (ENOENT "open" (path_text p)), w)
        end
    end.

Definition readFile (p : path) : M string :=
  fun w0 =>
    let w := traced (ReadFile p) w0 in
    match file_at w p with
    | Some text => (Ok text, w)
    | None => (Throw (ENOENT "open" (path_text p)), w)
    end.

Definition unlink (p : path) : M unit :=
  fun w0 =>
    let w := traced (Unlink p) w0 in
    match dirs w !! dirname p with
    | Some files =>
        match files !! basename p with
        | Some _ =>
            if bool_decide (dirname p ∈ denied w)
            then (Throw (EACCES "unlink" (path_text p)), w)
            else (Ok tt, with_dirs (<[dirname p := delete (basename p) files]> (dirs w)) w)
        | None =>
            if has_nul (path_text p)
            then (Throw (ERR_INVALID_ARG_VALUE (path_text p)), w)
            else if too_long (basename p)
            then (Throw (ENAMETOOLONG "unlink" (path_text p)), w)
            else if bool_decide (is_Some (dirs w !! path_text p))
            then (Throw (EISDIR "unlink" (path_text p)), w)
            else (Throw (ENOENT "unlink" (path_text p)), w)
        end
    | None =>
        if has_nul (path_text p)
        then (Throw (ERR_INVALID_ARG_VALUE (path_text p)), w)
        else if blocked w (dirname p)
        then (Throw (ENOTDIR "unlink" (path_text p)), w)
        else (Throw (ENOENT "unlink" (path_text p)), w)
    end.

Definition readdir (dir : string) : M (list string) :=
  fun w0 =>
    let w := traced (Readdir dir) w0 in
    match dirs w !! dir with
    | None => (Throw (ENOENT "scandir" dir), w)
    | Some files => (Ok (map_to_list files).*1, w)
    end.

(** One step of the walk towards [target]: a directory that is there is
    passed, a regular file in the way stops the walk, a missing directory
    is made unless the system refuses. *)
Definition make (target dir : string) : M unit :=
  fun w =>
    match dirs w !! dir with
    | Some _ => (Ok tt, w)
    | None =>
        if is_file w dir
        then (Throw (if String.eqb dir target then EEXIST "mkdir" target
                     else ENOTDIR "mkdir" target), w)
        else if bool_decide (dir ∈ denied w)
        then (Throw (EACCES "mkdir" dir), w)
        else (Ok tt, with_dirs (<[dir := ∅]> (dirs w)) w)
    end.

Fixpoint walk (target : string) (steps : list string) : M unit :=
  match steps with
  | [] => ret tt
  | dir :: rest => make target dir ;; walk target rest
  end.

(** [fsp.mkdir(dir, { recursive: true })] *)
Definition mkdir (dir : string) : M unit :=
  fun w0 =>
    let w := traced (Mkdir dir) w0 in
    match dirs w !! dir with
    | Some _ => (Ok tt, w)
    | None =>
        if has_nul dir then (Throw (ERR_INVALID_ARG_VALUE dir), w)
        else walk dir (lineage dir) w
    end.

(** [(await fsp.stat(dir)).isDirectory()] *)
Definition stat_isDirectory (dir : string) : M bool :=
  fun w0 =>
    let w := traced (Stat dir) w0 in
    match dirs w !! dir with
    | Some _ => (Ok true, w)
    | None =>
        if has_nul dir then (Throw (ERR_INVALID_ARG_VALUE dir), w)
        else if is_file w dir then (Ok false, w)
        else (Throw (ENOENT "stat" dir), w)
    end.

End Fsp.
End fsp.

Arguments fsp.writeFile : simpl never.

(** ** [lib/utils.js] *)

Module Utils.
Section Utils.
Context `{Platform}.

Definition ensureDirExists (dirPath : string) : M unit :=
  try_catch (fsp.mkdir dirPath)
    (fun error =>
       let* stat := try_catch (let* d := fsp.stat_isDirectory dirPath in ret (Some d))
                              (fun _ => ret None) in
       match stat with
       | Some true => ret tt
       | _ =>
           throw (Error ("Failed to create directory or path is not a directory: "
                         +:+ dirPath +:+ ". " +:+ message error))
       end).

(** The two [replace] calls that [_getDocPath] and [backupDocument] both
    apply to a document identifier. *)
Definition is_separator (c : ascii) : bool :=
  Ascii.eqb c "/" || Ascii.eqb c "\".

Definition is_reserved (c : ascii) : bool :=
  Ascii.eqb c "<" || Ascii.eqb c ">" || Ascii.eqb c ":" ||
  Ascii.eqb c JsString.dquote || Ascii.eqb c "|" || Ascii.eqb c "?" ||
  Ascii.eqb c "*".

Definition sanitize (docId : string) : string :=
  JsString.replaceAll is_reserved EmptyString
    (JsString.replaceAll is_separator "_" docId).

Definition backupDocument (rootDbPath collectionName docId : string)
    (jsonDataString : js_text) : M path :=
  let backupDirPath := path_join [rootDbPath; ".backup"; collectionName] in
  try_catch
    (ensureDirExists backupDirPath ;;
     let* timestamp := Date_now in
     let sanitizedDocId := sanitize docId in
     let backupFilePath :=
       Path backupDirPath (sanitizedDocId +:+ "_" +:+ pretty timestamp +:+ ".json.bak") in
     fsp.writeFile backupFilePath jsonDataString ;;
     console.warn ("Successfully backed up document '" +:+ docId
                   +:+ "' from collection '" +:+ collectionName +:+ "' to '"
                   +:+ path_text backupFilePath
                   +:+ "' due to original save failure.") ;;
     ret backupFilePath)
    (fun backupError =>
       console.error ("CRITICAL: Failed to backup document '" +:+ docId
                      +:+ "' from collection '" +:+ collectionName
                      +:+ "' after a save error. Data might be lost. Backup error: "
                      +:+ message backupError) ;;
       throw backupError).

Definition tryRepairAndParseJson (jsonString filePathForLogging : string)
  : M value :=
  try_catch (lift (JSON_parse jsonString))
    (fun parseError =>
       if is_SyntaxError parseError then
         console.warn ("Corrupted JSON content detected in " +:+ filePathForLogging
                       +:+ ". Attempting repair.") ;;
         try_catch
           (let* repairedJsonString := lift (jsonrepair jsonString) in
            console.warn ("JSON content in " +:+ filePathForLogging
                          +:+ " successfully repaired.") ;;
            lift (JSON_parse repairedJsonString))
           (fun repairError =>
              console.error ("Failed to repair JSON content in " +:+ filePathForLogging
                             +:+ " after initial parse error. Repair attempt error: "
                             +:+ message repairError +:+ ". Original parse error: "
                             +:+ message parseError) ;;
              throw parseError)
       else throw parseError).

End Utils.
End Utils.

(** ** Property access on a decoded document and on a query *)

Module JsProp.

Definition number_of_nat (n : nat) : value :=
  JNumber (PrimFloat.of_uint63 (Uint63.of_Z (Z.of_nat n))).

(** The index [i] below [len] that [key] spells, if any. *)
Definition index_of_key (len : nat) (key : string) : option nat :=
  List.find (fun i => String.eqb (pretty i) key) (seq 0 len).

Fixpoint chars (s : string) : list value :=
  match s with
  | EmptyString => []
  | String c rest => JString (String c EmptyString) :: chars rest
  end.

(** [v[key]] for an own property of [v]; [None] is [undefined]. *)
Definition member (v : value) (key : string) : option value :=
  match v with
  | JObject props => Js.own_property props key
  | JArray items =>
      if String.eqb key "length" then Some (number_of_nat (length items))
      else index_of_key (length items) key ≫= (items !!.)
  | JString s =>
      if String.eqb key "length" then Some (number_of_nat (String.length s))
      else index_of_key (String.length s) key ≫= (chars s !!.)
  | _ => None
  end.

(** [v.hasOwnProperty(key)] for a truthy [v]: an object looks the method
    up on itself first (see [Js.hasOwnProperty]); arrays and primitives
    reach the inherited method. *)
Definition hasOwnProperty (v : value) (key : string) : result bool :=
  match v with
  | JObject props => Js.hasOwnProperty "docContent" props key
  | JNull => Throw (TypeError "Cannot read properties of null (reading 'hasOwnProperty')")
  | _ => Ok (bool_decide (is_Some (member v key)))
  end.

(** The keys [for (const key in v)] visits, each with [v[key]]. *)
Definition for_in (v : value) : list (string * value) :=
  match v with
  | JObject props => props
  | JArray items => imap (fun i item => (pretty i, item)) items
  | JString s => imap (fun i item => (pretty i, item)) (chars s)
  | _ => []
  end.

(** [String(v)], which is what a template literal makes of [v].  An array
    joins its elements with commas, [null] elements left empty. *)
Fixpoint to_string `{Platform} (v : value) : string :=
  match v with
  | JNull => "null"
  | JBool true => "true"
  | JBool false => "false"
  | JNumber n => Number_toString n
  | JString s => s
  | JArray items =>
      String.concat ","
        (map (fun item =>
                match item with
                | JNull => EmptyString
                | _ => to_string item
                end) items)
  | JObject _ => "[object Object]"
  end.

(** [q.search], [s.match] and [s.like], the three properties [all] reads
    from a query.  Only objects carry them as data.  A string inherits
    functions named [search] and [match], which are truthy but have
    nothing for [for ... in] to visit, so they filter nothing: reading
    them as [undefined] gives the same scan. *)
Definition property (v : value) (key : string) : option value :=
  match v with
  | JObject props => Js.own_property props key
  | _ => None
  end.

End JsProp.

(** ** [lib/collection.js] *)

(** The [data] argument of [set]: [undefined], a JSON value, a value
    [JSON.stringify] throws on (a cycle, a BigInt) with what it throws, or
    a value it returns [undefined] on without throwing (a function, a
    symbol). *)
Inductive js_data : Type :=
| Undefined
| Unserializable (e : js_error)
| Data (v : value)
| NotJson.

(** [JSON.stringify(data, null, 2)] *)
Definition stringify `{Platform} (data : js_data) : result js_text :=
  match data with
  | Undefined | NotJson => Ok None
  | Unserializable e => Throw e
  | Data v => Ok (Some (JSON_stringify v))
  end.

Module Collection.
Section Collection.
Context `{Platform}.

(** [this.rootDbPath], [this.collectionName] *)
Variable rootDbPath collectionName : string.

Definition collectionPath : string := path_join [rootDbPath; collectionName].

(** [docId] is a JavaScript value; [None] is [undefined]. *)
Definition interpolate (docId : option value) : string :=
  match docId with
  | Some v => JsProp.to_string v
  | None => "undefined"
  end.

Definition _getDocPath (docId : option value) : result path :=
  match docId with
  | Some (JString id) =>
      if JsString.trim_is_empty id
      then Throw (Error "Document ID must be a non-empty string.")
      else
        let sanitizedDocId := Utils.sanitize id in
        if JsString.includes sanitizedDocId ".."
        then Throw (Error ("Invalid document ID format. Cannot contain '..': " +:+ id))
        else if (200 <? String.length sanitizedDocId)%nat
        then Throw (Error ("Document ID is too long: " +:+ id))
        else Ok (Path collectionPath (sanitizedDocId +:+ ".json"))
  | _ => Throw (Error "Document ID must be a non-empty string.")
  end.

(** [{ success: true, id: docId, path: path.basename(docPath) }] *)
Record set_result : Type := SetResult {
  set_success : bool;
  set_id : option value;
  set_path : string;
}.

(** The line [set] logs when the write fails. *)
Definition write_failure_line (docId : option value) (docPath : path)
    (writeError : js_error) : string :=
  "Error setting document '" +:+ interpolate docId
  +:+ "' in collection '" +:+ collectionName +:+ "' at '"
  +:+ path_text docPath +:+ "': " +:+ message writeError.

(** What [set] throws when [data === undefined]. *)
Definition undefined_data : js_error :=
  Error "Data to set cannot be undefined. Use null or an empty object/array ifneeded.".

(** What [set] throws when [JSON.stringify(data, null, 2)] throws [e]. *)
Definition not_serializable (docId : option value) (e : js_error) : js_error :=
  Error ("Data for document ID '" +:+ interpolate docId
         +:+ "' is not JSON serializable: " +:+ message e).

Definition set (docId : option value) (data : js_data) : M set_result :=
  match data with
  | Undefined => throw undefined_data
  | _ =>
      let* jsonDataString :=
        try_catch (lift (stringify data))
          (fun e => throw (not_serializable docId e)) in
      let* docPath := lift (_getDocPath docId) in
      try_catch
        (fsp.writeFile docPath jsonDataString ;;
         ret (SetResult true docId (basename docPath)))
        (fun writeError =>
           console.error (write_failure_line docId docPath writeError) ;;
           try_catch
             (Utils.backupDocument rootDbPath collectionName (interpolate docId)
                jsonDataString ;;
              ret tt)
             (fun backupFailureError =>
                throw (Error ("Failed to set document '" +:+ interpolate docId
                              +:+ "' and also failed to backup: "
                              +:+ message writeError +:+ ". Backup failure: "
                              +:+ message backupFailureError))) ;;
           throw (Error ("Failed to set document '" +:+ interpolate docId +:+ "': "
                         +:+ message writeError +:+ ". Data was backed up.")))
  end.

(** [get] resolves with the decoded document or with [null]. *)
Definition get (docId : option value) : M value :=
  let* docPath := lift (_getDocPath docId) in
  try_catch
    (let* rawContent := fsp.readFile docPath in
     Utils.tryRepairAndParseJson rawContent (path_text docPath))
    (fun error =>
       if is_ENOENT error then ret JNull
       else
         console.error ("Error getting document '" +:+ interpolate docId
                        +:+ "' from collection '" +:+ collectionName +:+ "' at '"
                        +:+ path_text docPath +:+ "': " +:+ message error) ;;
         throw (Error ("Failed to get document '" +:+ interpolate docId +:+ "': "
                       +:+ message error))).

(** [{ success, id }] or [{ success: false, id, message }] *)
Record del_result : Type := DelResult {
  del_success : bool;
  del_id : option value;
  del_message : option string;
}.

Definition del (docId : option value) : M del_result :=
  let* docPath := lift (_getDocPath docId) in
  try_catch
    (fsp.unlink docPath ;;
     ret (DelResult true docId None))
    (fun error =>
       if is_ENOENT error
       then ret (DelResult false docId (Some "Document not found."))
       else
         console.error ("Error deleting document '" +:+ interpolate docId
                        +:+ "' from collection '" +:+ collectionName +:+ "' at '"
                        +:+ path_text docPath +:+ "': " +:+ message error) ;;
         throw (Error ("Failed to delete document '" +:+ interpolate docId +:+ "': "
                       +:+ message error))).

(** [_checkMatch] returns a boolean or throws. *)
Fixpoint _checkMatch (docValue queryValue : value) {struct queryValue} : result bool :=
  match queryValue with
  | JArray qitems =>
      match docValue with
      | JArray ditems =>
          if negb (length ditems =? length qitems)%nat then Ok false
          else
            (fix loop (ds qs : list value) {struct qs} : result bool :=
               match qs, ds with
               | q :: qs', d :: ds' =>
                   match _checkMatch d q with
                   | Ok true => loop ds' qs'
                   | Ok false => Ok false
                   | Throw e => Throw e
                   end
               | _, _ => Ok true
               end) ditems qitems
      | _ => Ok false
      end
  | JObject qprops =>
      match docValue with
      | JObject dprops =>
          (fix loop (qs : list (string * value)) : result bool :=
             match qs with
             | [] => Ok true
             | (key, q) :: qs' =>
                 match Js.hasOwnProperty "docValue" dprops key with
                 | Throw e => Throw e
                 | Ok false => Ok false
                 | Ok true =>
                     match Js.own_property dprops key with
                     | None => Ok false
                     | Some d =>
                         match _checkMatch d q with
                         | Ok true => loop qs'
                         | Ok false => Ok false
                         | Throw e => Throw e
                         end
                     end
                 end
             end) qprops
      | _ => Ok false
      end
  | _ =>
      match docValue with
      | JArray ditems => Ok (Js.array_includes ditems queryValue)
      | _ => Ok (Js.strict_equals docValue queryValue)
      end
  end.

Fixpoint _checkLike (docValue queryValue : value) {struct queryValue} : result bool :=
  match queryValue with
  | JString q =>
      let qvLower := JsString.toLowerCase q in
      match docValue with
      | JString d => Ok (JsString.includes (JsString.toLowerCase d) qvLower)
      | JArray ditems =>
          Ok (existsb
                (fun item =>
                   match item with
                   | JString s => JsString.includes (JsString.toLowerCase s) qvLower
                   | _ => false
                   end) ditems)
      | _ => Ok false
      end
  | JArray _ => Ok false
  | JObject qprops =>
      match docValue with
      | JObject dprops =>
          (fix loop (qs : list (string * value)) : result bool :=
             match qs with
             | [] => Ok true
             | (key, q) :: qs' =>
                 match Js.hasOwnProperty "docValue" dprops key with
                 | Throw e => Throw e
                 | Ok false => Ok false
                 | Ok true =>
                     match Js.own_property dprops key with
                     | None => Ok false
                     | Some d =>
                         match _checkLike d q with
                         | Ok true => loop qs'
                         | Ok false => Ok false
                         | Throw e => Throw e
                         end
                     end
                 end
             end) qprops
      | _ => Ok false
      end
  | _ =>
      match docValue with
      | JArray ditems => Ok (Js.array_includes ditems queryValue)
      | _ => Ok (Js.strict_equals docValue queryValue)
      end
  end.

(** One block of [all]:
    [for (const key in block)
       if (!docContent.hasOwnProperty(key) || !check(docContent[key], block[key]))
         { matchesQuery = false; break }] *)
Fixpoint check_fields (check : value → value → result bool) (docContent : value)
    (fields : list (string * value)) : result bool :=
  match fields with
  | [] => Ok true
  | (key, q) :: rest =>
      match JsProp.hasOwnProperty docContent key with
      | Throw e => Throw e
      | Ok false => Ok false
      | Ok true =>
          match JsProp.member docContent key with
          | None => Ok false
          | Some d =>
              match check d q with
              | Ok true => check_fields check docContent rest
              | Ok false => Ok false
              | Throw e => Throw e
              end
          end
      end
  end.

(** [block] is [query.search.match] or [query.search.like]; a falsy block
    is skipped. *)
Definition check_block (check : value → value → result bool) (docContent : value)
    (block : option value) : result bool :=
  match block with
  | Some b => if Js.truthy b then check_fields check docContent (JsProp.for_in b)
              else Ok true
  | None => Ok true
  end.

(** [query.search] when [query && query.search], else [None]. *)
Definition search_of (query : option value) : option value :=
  match query with
  | Some q =>
      if Js.truthy q then
        match JsProp.property q "search" with
        | Some s => if Js.truthy s then Some s else None
        | None => None
        end
      else None
  | None => None
  end.

(** The filter of [all] once [query.search] is known to be truthy. *)
Definition matchesQuery (search docContent : value) : result bool :=
  match check_block _checkMatch docContent (JsProp.property search "match") with
  | Ok true => check_block _checkLike docContent (JsProp.property search "like")
  | other => other
  end.

(** The body of [for (const fileName of filesInDir)], with [results] the
    array being filled. *)
Fixpoint scan (query : option value) (filesInDir : list string) (results : list value)
  : M (list value) :=
  match filesInDir with
  | [] => ret results
  | fileName :: rest =>
      if negb (JsString.endsWith fileName ".json") then scan query rest results
      else
        let docPath := Path collectionPath fileName in
        let* docContent :=
          try_catch
            (let* rawContent := fsp.readFile docPath in
             let* v := Utils.tryRepairAndParseJson rawContent (path_text docPath) in
             ret (Some v))
            (fun readOrParseError =>
               console.warn ("Skipping unreadable/corrupted file '" +:+ fileName
                             +:+ "' in collection '" +:+ collectionName
                             +:+ "' due to: " +:+ message readOrParseError) ;;
               ret None) in
        match docContent with
        | None => scan query rest results
        | Some doc =>
            if negb (Js.truthy doc) then scan query rest results
            else
              match search_of query with
              | None => scan query rest (results ++ [doc])
              | Some search =>
                  let* keep := lift (matchesQuery search doc) in
                  if keep then scan query rest (results ++ [doc])
                  else scan query rest results
              end
        end
  end.

Definition all (query : option value) : M (list value) :=
  let* filesInDir :=
    try_catch
      (Utils.ensureDirExists collectionPath ;;
       let* names := fsp.readdir collectionPath in
       ret (Some names))
      (fun error =>
         if is_ENOENT error then ret None
         else
           console.error ("Error reading collection directory '" +:+ collectionName
                          +:+ "' at '" +:+ collectionPath +:+ "': " +:+ message error) ;;
           throw (Error ("Failed to read collection '" +:+ collectionName +:+ "': "
                         +:+ message error))) in
  match filesInDir with
  | None => ret []
  | Some names => scan query names []
  end.

End Collection.
End Collection.

(** ** The specification's words *)

Module Spec.

Definition is_sequence (v : value) : bool :=
  match v with
  | JArray _ => true
  | _ => false
  end.

Definition is_text (v : value) : bool :=
  match v with
  | JString _ => true
  | _ => false
  end.

(** [matches(docValue, queryValue)], case by case as section 4.4 words it. *)
Inductive Matches : value → value → Prop :=
| Matches_contains (ditems : list value) (q : value) :
    Js.is_primitive q = true →
    (∃ d, d ∈ ditems ∧ Js.same_value_zero d q = true) →
    Matches (JArray ditems) q
| Matches_equal (d q : value) :
    Js.is_primitive q = true →
    is_sequence d = false →
    Js.strict_equals d q = true →
    Matches d q
| Matches_pairwise (ditems qitems : list value) :
    length ditems = length qitems →
    (∀ i d q, ditems !! i = Some d → qitems !! i = Some q → Matches d q) →
    Matches (JArray ditems) (JArray qitems)
| Matches_keyed (dprops qprops : list (string * value)) :
    (∀ key q, (key, q) ∈ qprops →
              ∃ d, Js.own_property dprops key = Some d ∧ Matches d q) →
    Matches (JObject dprops) (JObject qprops).

(** [text] contains [needle], case-insensitively. *)
Definition contains_lowercase (text needle : string) : bool :=
  JsString.includes (JsString.toLowerCase text) (JsString.toLowerCase needle).

(** [like(docValue, queryValue)], case by case as section 4.4 words it.
    No case has a sequence as [queryValue]. *)
Inductive Likes : value → value → Prop :=
| Likes_text (d q : string) :
    contains_lowercase d q = true →
    Likes (JString d) (JString q)
| Likes_text_element (ditems : list value) (q : string) :
    (∃ s, JString s ∈ ditems ∧ contains_lowercase s q = true) →
    Likes (JArray ditems) (JString q)
| Likes_contains (ditems : list value) (q : value) :
    Js.is_primitive q = true → is_text q = false →
    (∃ d, d ∈ ditems ∧ Js.same_value_zero d q = true) →
    Likes (JArray ditems) q
| Likes_equal (d q : value) :
    Js.is_primitive q = true → is_text q = false →
    is_sequence d = false →
    Js.strict_equals d q = true →
    Likes d q
| Likes_keyed (dprops qprops : list (string * value)) :
    (∀ key q, (key, q) ∈ qprops →
              ∃ d, Js.own_property dprops key = Some d ∧ Likes d q) →
    Likes (JObject dprops) (JObject qprops).

(** No keyed structure inside [v] has a key named [hasOwnProperty]. *)
Fixpoint shadow_free (v : value) : bool :=
  match v with
  | JArray items => forallb shadow_free items
  | JObject props =>
      negb (bool_decide (is_Some (Js.own_property props "hasOwnProperty")))
      && forallb (fun kv => shadow_free kv.2) props
  | _ => true
  end.

(** Sanitisation as section 4.1 words it: the separators and the reserved
    characters are all stripped. *)
Definition strip (rawId : string) : string :=
  JsString.replaceAll (fun c => Utils.is_separator c || Utils.is_reserved c)
    EmptyString rawId.

(** Sanitisation character by character: a separator becomes an
    underscore, a reserved character goes, every other one stays. *)
Fixpoint safe_name (rawId : string) : string :=
  match rawId with
  | EmptyString => EmptyString
  | String c rest =>
      if Utils.is_separator c then String "_" (safe_name rest)
      else if Utils.is_reserved c then safe_name rest
      else String c (safe_name rest)
  end.

(** The three ways [_getDocPath] rejects an identifier. *)
Definition InvalidIdentifier (e : js_error) : Prop :=
  e = Error "Document ID must be a non-empty string."
  ∨ (∃ id, e = Error ("Invalid document ID format. Cannot contain '..': " +:+ id))
  ∨ (∃ id, e = Error ("Document ID is too long: " +:+ id)).

(** An identifier that is not a string, is blank (empty included), keeps
    the traversal sequence after sanitisation, or is longer than 200 code
    units after sanitisation. *)
Definition rejected (docId : option value) : Prop :=
  match docId with
  | Some (JString id) =>
      JsString.trim_is_empty id = true
      ∨ JsString.includes (Utils.sanitize id) ".." = true
      ∨ 200 < String.length (Utils.sanitize id)
  | _ => True
  end.

(** [decode]: what [tryRepairAndParseJson] settles with, console aside. *)
Definition decode `{Platform} (text : string) : result value :=
  match JSON_parse text with
  | Ok v => Ok v
  | Throw parseError =>
      if is_SyntaxError parseError then
        match jsonrepair text with
        | Ok repaired =>
            match JSON_parse repaired with
            | Ok v => Ok v
            | Throw _ => Throw parseError
            end
        | Throw _ => Throw parseError
        end
      else Throw parseError
  end.

(** What [get] settles with on a valid identifier, given the text of its
    file ([None]: there is no file). *)
Definition read_outcome `{Platform} (docId : option value) (content : option string)
  : result value :=
  match content with
  | None => Ok JNull
  | Some text =>
      match decode text with
      | Ok v => Ok v
      | Throw e =>
          if is_ENOENT e then Ok JNull
          else Throw (Error ("Failed to get document '"
                             +:+ Collection.interpolate docId +:+ "': " +:+ message e))
      end
  end.

(** What an unfiltered scan keeps of one directory entry: the decoded
    value of a [.json] file, unless decoding fails or the value is falsy. *)
Definition scanned `{Platform} (files : gmap string string) (fileName : string)
  : list value :=
  if JsString.endsWith fileName ".json" then
    match files !! fileName with
    | Some text =>
        match decode text with
        | Ok v => if Js.truthy v then [v] else []
        | Throw _ => []
        end
    | None => []
    end
  else [].

(** The values a scan treats as absent: [null], [false], zero of either
    sign, NaN and the empty string. *)
Definition falsy (v : value) : bool :=
  match v with
  | JNull => true
  | JBool b => negb b
  | JNumber n => PrimFloat.eqb n 0 || negb (PrimFloat.eqb n n)
  | JString EmptyString => true
  | _ => false
  end.

(** What a scan lists of one directory entry when nothing filters: the
    decoded value of a [.json] file, unless decoding fails or the value is
    one of the falsy ones. *)
Definition listed `{Platform} (files : gmap string string) (fileName : string)
  : list value :=
  if JsString.endsWith fileName ".json" then
    match files !! fileName with
    | Some text =>
        match decode text with
        | Ok v => if falsy v then [] else [v]
        | Throw _ => []
        end
    | None => []
    end
  else [].


(** What calling [get] contributes to the comparison with a scan: the
    value it resolves with, unless it throws or the value is falsy. *)
Definition got (r : result value) : list value :=
  match r with
  | Ok v => if Js.truthy v then [v] else []
  | Throw _ => []
  end.

End Spec.

(** ** A platform to run examples on

    The examples store and read the scalars [null], [true], [false] and [0]
    only, so this instance knows [JSON.parse] and [JSON.stringify] on those
    four texts and values and nothing else of JSON.  The empty text is the
    malformed text of the examples: [JSON.parse] rejects it with a syntax
    error and [jsonrepair] gives up on it. *)

Module Example.

Definition parse (text : string) : result value :=
  if String.eqb text "null" then Ok JNull
  else if String.eqb text "true" then Ok (JBool true)
  else if String.eqb text "false" then Ok (JBool false)
  else if String.eqb text "0" then Ok (JNumber 0)
  else if String.eqb text EmptyString
  then Throw (SyntaxError "Unexpected end of JSON input")
  else Throw (SyntaxError ("Unexpected token in JSON: " +:+ text)).

Definition stringify (v : value) : string :=
  match v with
  | JBool true => "true"
  | JBool false => "false"
  | JNumber n => if PrimFloat.is_zero n then "0" else "null"
  | _ => "null"
  end.

Definition repair (text : string) : result string :=
  if String.eqb text EmptyString
  then Throw (Error "Unexpected end of json string at position 0")
  else Ok text.

Definition number_text (n : float) : string :=
  if PrimFloat.is_zero n then "0" else "NaN".

(** [path.dirname] on names joined with [/]: the part before the last
    separator. *)
Fixpoint before_last_separator (s : string) : option string :=
  match s with
  | EmptyString => None
  | String c rest =>
      match before_last_separator rest with
      | Some d => Some (String c d)
      | None => if Ascii.eqb c "/" then Some EmptyString else None
      end
  end.

Definition dirname_text (s : string) : string :=
  match before_last_separator s with
  | Some EmptyString => "/"
  | Some d => d
  | None => "."
  end.

(** A string between single quotes, NUL written as an escape. *)
Definition quote (s : string) : string :=
  "'" +:+ JsString.replaceAll (fun c => Ascii.eqb c "000") "\x00" s +:+ "'".

#[export] Instance platform : Platform := {|
  JSON_parse := parse;
  JSON_stringify := stringify;
  Number_toString := number_text;
  jsonrepair := repair;
  path_join := String.concat "/";
  path_dirname := dirname_text;
  inspect := quote;
|}.

Definition root : string := "db".
Definition users : string := "users".

(** An empty [users] collection. *)
Definition empty_db : World :=
  mkWorld {[ "db/users" := ∅ ]} ∅ 1700000000000 [] [].

(** A database directory in which a regular file holds the path of the
    collection [users]. *)
Definition db_with_file_users : World :=
  mkWorld {[ "db" := {[ "users" := "text" ]} ]} ∅ 1700000000000 [] [].

(** A collection holding the document [false] under the identifier [x]. *)
Definition db_with_false : World :=
  mkWorld {[ "db/users" := {[ "x.json" := "false" ]} ]} ∅ 1700000000000 [] [].

(** A collection whose document [x] was truncated to the empty text. *)
Definition db_with_truncated : World :=
  mkWorld {[ "db/users" := {[ "x.json" := EmptyString ]} ]} ∅ 1700000000000 [] [].

(** The collection directory is gone; backups can be written. *)
Definition db_without_collection : World :=
  mkWorld ∅ ∅ 1700000000000 [] [].

(** The collection directory is gone and the backup directory cannot be
    created. *)
Definition db_without_backup : World :=
  mkWorld ∅ {[ "db/.backup/users" ]} 1700000000000 [] [].

(** A collection with a truthy document, a falsy one and a file that is
    not a document. *)
Definition some_files : gmap string string :=
  {[ "a.json" := "true"; "x.json" := "false"; "notes.txt" := "true" ]}.

Definition db_with_files : World :=
  mkWorld {[ "db/users" := some_files ]} ∅ 1700000000000 [] [].

Definition id (s : string) : option value := Some (JString s).



(** The identifier a document file is named after: the name without its
    [.json]. *)
Definition identifier (fileName : string) : string :=
  String.substring 0 (String.length fileName - 5) fileName.

(** The collection [users] of the database at [db]. *)
Definition getDocPath := Collection._getDocPath (H := platform) root users.
Definition set := Collection.set (H := platform) root users.
Definition get := Collection.get (H := platform) root users.
Definition del := Collection.del (H := platform) root users.
Definition all := Collection.all (H := platform) root users.

End Example.

(** ** More string methods *)

Module JsText.

(** [/[cls]/.test(s)]: some code unit of [s] is in the class. *)
Fixpoint some_char (cls : ascii → bool) (s : string) : bool :=
  match s with
  | EmptyString => false
  | String c rest => cls c || some_char cls rest
  end.

(** [s.startsWith(prefix)] *)
Definition startsWith (s prefix : string) : bool := String.prefix prefix s.

Fixpoint trimStart (s : string) : string :=
  match s with
  | EmptyString => EmptyString
  | String c rest => if JsString.is_whitespace c then trimStart rest else s
  end.

Fixpoint trimEnd (s : string) : string :=
  match s with
  | EmptyString => EmptyString
  | String c rest =>
      match trimEnd rest with
      | EmptyString => if JsString.is_whitespace c then EmptyString
                       else String c EmptyString
      | kept => String c kept
      end
  end.

(** [s.trim()] *)
Definition trim (s : string) : string := trimEnd (trimStart s).

End JsText.

(** ** [node:fs], the synchronous calls of the constructors

    They act on the same file system as [fsp]; the trace records
    [existsSync] and [statSync] as a [Stat] and [mkdirSync] as a [Mkdir]. *)

Module fs.
Section Fs.
Context `{Platform}.

Definition existsSync (dir : string) : M bool :=
  fun w0 =>
    let w := traced (Stat dir) w0 in
    (Ok (bool_decide (is_Some (dirs w !! dir))
         || negb (fsp.has_nul dir) && fsp.is_file w dir), w).

(** [fs.mkdirSync(dir, { recursive: true })] *)
Definition mkdirSync (dir : string) : M unit := fsp.mkdir dir.

(** [fs.statSync(dir).isDirectory()] *)
Definition statSync_isDirectory (dir : string) : M bool := fsp.stat_isDirectory dir.

End Fs.
End fs.

(** ** [lib/collection.js]: the constructor of [Collection] *)

(** A [Collection] object: its three fields. *)
Record collection : Type := CollectionObject {
  this_rootDbPath : string;
  this_collectionName : string;
  this_collectionPath : string;
}.

Module CollectionClass.
Section CollectionClass.
Context `{Platform}.

Definition invalid_rootDbPath : js_error :=
  Error "Collection constructor requires a valid rootDbPath string.".

Definition invalid_collectionName : js_error :=
  Error "Collection constructor requires a valid collectionName string.".

(** [x] when [x && typeof x === 'string'], else [None]. *)
Definition nonempty_string (x : option value) : option string :=
  match x with
  | Some (JString s) => if String.eqb s EmptyString then None else Some s
  | _ => None
  end.

Definition constructor (rootDbPath collectionName : option value) : M collection :=
  match nonempty_string rootDbPath with
  | None => throw invalid_rootDbPath
  | Some root =>
      match nonempty_string collectionName with
      | None => throw invalid_collectionName
      | Some name =>
          let collectionPath := path_join [root; name] in
          try_catch
            (let* present := fs.existsSync collectionPath in
             if negb present then fs.mkdirSync collectionPath
             else
               let* isDirectory := fs.statSync_isDirectory collectionPath in
               if negb isDirectory
               then throw (Error ("Path for collection '" +:+ name
                                  +:+ "' exists but is not a directory: "
                                  +:+ collectionPath))
               else ret tt)
            (fun mkdirError =>
               throw (Error ("Failed to initialize collection directory '"
                             +:+ collectionPath +:+ "': " +:+ message mkdirError))) ;;
          ret (CollectionObject root name collectionPath)
      end
  end.

(** The methods of a [Collection] object. *)
Definition set (this : collection) :=
  Collection.set (this_rootDbPath this) (this_collectionName this).
Definition get (this : collection) :=
  Collection.get (this_rootDbPath this) (this_collectionName this).
Definition del (this : collection) :=
  Collection.del (this_rootDbPath this) (this_collectionName this).
Definition all (this : collection) :=
  Collection.all (this_rootDbPath this) (this_collectionName this).

End CollectionClass.
End CollectionClass.

(** ** [lib/collection.js]: the class [LocalDB]

    [_validateCollectionName], [newCol] and [getCol] of a database whose
    [dbPath] is known; [_collectionsCache] is passed in and out.  Of
    [console.error(text, error)] the console keeps the text followed by
    the message of the error. *)

Module LocalDB.
Section LocalDB.
Context `{Platform}.

(** [this.dbPath] *)
Variable dbPath : string.

Definition empty_name : js_error :=
  Error "Collection name must be a non-empty string.".

Definition invalid_name (collectionName : string) : js_error :=
  Error ("Invalid collection name: '" +:+ collectionName
         +:+ "'. Cannot contain path traversal, reserved characters, or start with a dot.").

Definition name_too_long (collectionName : string) : js_error :=
  Error ("Collection name is too long: " +:+ collectionName).

Definition _validateCollectionName (collectionName : option value) : result string :=
  match collectionName with
  | Some (JString name) =>
      if JsString.trim_is_empty name then Throw empty_name
      else if JsText.startsWith name "."
              || (JsText.some_char Utils.is_separator name || JsString.includes name "..")
              || JsText.some_char Utils.is_reserved name
      then Throw (invalid_name name)
      else if (100 <? String.length name)%nat then Throw (name_too_long name)
      else Ok (JsText.trim name)
  | _ => Throw empty_name
  end.

(** [{ success: true, name, path, message }] *)
Record newCol_result : Type := NewColResult {
  newCol_success : bool;
  newCol_name : string;
  newCol_path : string;
  newCol_message : string;
}.

(** [new Collection(this.dbPath, validName)] *)
Definition new_Collection (validName : string) : M collection :=
  CollectionClass.constructor (Some (JString dbPath)) (Some (JString validName)).

Definition newCol (collectionName : option value) (_collectionsCache : gmap string collection)
  : M (newCol_result * gmap string collection) :=
  let* validName := lift (_validateCollectionName collectionName) in
  let collectionPath := path_join [dbPath; validName] in
  try_catch
    (Utils.ensureDirExists collectionPath ;;
     let* cache :=
       match _collectionsCache !! validName with
       | Some _ => ret _collectionsCache
       | None =>
           let* instance := new_Collection validName in
           ret (<[validName := instance]> _collectionsCache)
       end in
     ret (NewColResult true validName collectionPath
            ("Collection '" +:+ validName +:+ "' ensured."), cache))
    (fun error =>
       console.error ("Error ensuring collection '" +:+ validName +:+ "' at '"
                      +:+ collectionPath +:+ "': " +:+ message error) ;;
       throw (Error ("Failed to ensure collection '" +:+ validName +:+ "': "
                     +:+ message error))).

(** [getCol(collectionName = 'default')] *)
Definition getCol (collectionName : option value) (_collectionsCache : gmap string collection)
  : M (collection * gmap string collection) :=
  let collectionName :=
    match collectionName with
    | None => Some (JString "default")
    | given => given
    end in
  let* validName := lift (_validateCollectionName collectionName) in
  match _collectionsCache !! validName with
  | Some cached => ret (cached, _collectionsCache)
  | None =>
      let* collectionInstance := new_Collection validName in
      ret (collectionInstance, <[validName := collectionInstance]> _collectionsCache)
  end.

End LocalDB.
End LocalDB.

(** ** What the further theorems are stated with *)

Module Behaviour.
Section Behaviour.
Context `{Platform}.

(** No code unit of [s] is a separator or a reserved character. *)
Definition clean (s : string) : bool :=
  JsString.forall_chars
    (fun c => negb (Utils.is_separator c || Utils.is_reserved c)) s.

(** The filter of [all] over the documents a scan decodes, in order: the
    first document on which the filter throws ends the scan. *)
Fixpoint select (search : value) (docs : list value) (results : list value)
  : result (list value) :=
  match docs with
  | [] => Ok results
  | doc :: rest =>
      match Collection.matchesQuery search doc with
      | Throw e => Throw e
      | Ok true => select search rest (results ++ [doc])
      | Ok false => select search rest results
      end
  end.

(** Every field of the block is a field of the document and [holds] of the
    two values. *)
Definition fields_hold (holds : value → value → Prop)
    (dprops : list (string * value)) (block : list (string * value)) : Prop :=
  ∀ key q, (key, q) ∈ block →
    ∃ d, Js.own_property dprops key = Some d ∧ holds d q.

(** Every cached object is the [Collection] of the name it is cached
    under. *)
Definition cache_ok (dbPath : string) (cache : gmap string collection) : Prop :=
  ∀ name c, cache !! name = Some c →
    c = CollectionObject dbPath name (path_join [dbPath; name]).

(** The fields one block of a search filters on: those [for ... in]
    visits, none when the block is absent or falsy. *)
Definition block_fields (block : option value) : list (string * value) :=
  match block with
  | Some b => if Js.truthy b then JsProp.for_in b else []
  | None => []
  end.

End Behaviour.
End Behaviour.

(** ** A platform with objects and repairs

    [Example.platform] extended by what the further examples need: two
    object documents, each with the text [JSON.stringify(v, null, 2)]
    writes for it, and the repair of the Python constants, which
    [jsonrepair] rewrites to their JSON spelling. *)

Module Fixture.

Definition newline : string := String "010"%char EmptyString.

Definition quoted (s : string) : string :=
  String JsString.dquote (s +:+ String JsString.dquote EmptyString).

(** One field on a line of its own, indented by two spaces. *)
Definition object_text (key value_text : string) : string :=
  "{" +:+ newline +:+ "  " +:+ quoted key +:+ ": " +:+ value_text
  +:+ newline +:+ "}".

Definition book : value := JObject [("category", JString "Books")].
Definition book_text : string := object_text "category" (quoted "Books").

(** A document with a field named [hasOwnProperty]. *)
Definition hidden : value := JObject [("hasOwnProperty", JBool true)].
Definition hidden_text : string := object_text "hasOwnProperty" "true".

Definition parse (text : string) : result value :=
  if String.eqb text book_text then Ok book
  else if String.eqb text hidden_text then Ok hidden
  else Example.parse text.

Definition stringify (v : value) : string :=
  match v with
  | JObject [(key, JString s)] =>
      if String.eqb key "category" && String.eqb s "Books" then book_text
      else Example.stringify v
  | JObject [(key, JBool true)] =>
      if String.eqb key "hasOwnProperty" then hidden_text
      else Example.stringify v
  | _ => Example.stringify v
  end.

Definition repair (text : string) : result string :=
  if String.eqb text "True" then Ok "true"
  else if String.eqb text "False" then Ok "false"
  else if String.eqb text "None" then Ok "null"
  else Example.repair text.

#[export] Instance platform : Platform := {|
  JSON_parse := parse;
  JSON_stringify := stringify;
  Number_toString := Example.number_text;
  jsonrepair := repair;
  path_join := String.concat "/";
  path_dirname := Example.dirname_text;
  inspect := Example.quote;
|}.

Definition root : string := "db".
Definition books : string := "books".

(** A collection of two documents: a book and a flag. *)
Definition shelf : gmap string string :=
  {[ "b1.json" := book_text; "flag.json" := "true" ]}.

Definition library : World :=
  mkWorld {[ "db/books" := shelf ]} ∅ 1700000000000 [] [].

(** The same with a document that has a field named [hasOwnProperty]. *)
Definition shelf_with_hidden : gmap string string :=
  {[ "b1.json" := book_text; "h.json" := hidden_text ]}.

Definition library_with_hidden : World :=
  mkWorld {[ "db/books" := shelf_with_hidden ]} ∅ 1700000000000 [] [].

(** A document written as a Python constant. *)
Definition library_with_python : World :=
  mkWorld {[ "db/books" := {[ "x.json" := "True" ]} ]} ∅ 1700000000000 [] [].

(** A collection the system does not let be changed. *)
Definition read_only_db : World :=
  mkWorld {[ "db/users" := {[ "x.json" := "true" ]} ]} {[ "db/users" ]}
    1700000000000 [] [].

(** One millisecond later. *)
Definition later (w : World) : World :=
  mkWorld (dirs w) (denied w) (now w + 1) (calls w) (console w).

(** [{ search: { match: { category: 'Books' } } }] *)
Definition books_only : value :=
  JObject [("match", JObject [("category", JString "Books")])].

Definition books_query : option value :=
  Some (JObject [("search", books_only)]).

Definition id (s : string) : option value := Some (JString s).

Definition getDocPath := Collection._getDocPath (H := platform) root books.
Definition get := Collection.get (H := platform) root books.
Definition all := Collection.all (H := platform) root books.

End Fixture.

(** * Theorems *)

Ltac unfold_m :=
  unfold bind, try_catch, lift, ret, throw, console.warn, console.error, Date_now.

Ltac run := unfold_m; simpl.

(** ** The predicates *)

Section Predicates.
Context `{Platform}.

Lemma array_includes_spec (items : list value) (q : value) :
  Js.array_includes items q = true ↔
  ∃ d, d ∈ items ∧ Js.same_value_zero d q = true.
Proof.
  unfold Js.array_includes. rewrite existsb_exists.
  split; intros (d & Hd & Heq); exists d; split; auto;
    by apply list_elem_of_In.
Qed.

Lemma own_property_shadow_free (props : list (string * value)) key d :
  forallb (fun kv => Spec.shadow_free kv.2) props = true →
  Js.own_property props key = Some d →
  Spec.shadow_free d = true.
Proof.
  induction props as [|[k v] props IH]; simpl; [done|].
  intros [Hv Hrest]%andb_prop.
  destruct (String.eqb k key); [by intros [= <-] | auto].
Qed.

Lemma hasOwnProperty_shadow_free receiver (props : list (string * value)) key :
  Js.own_property props "hasOwnProperty" = None →
  Js.hasOwnProperty receiver props key
  = Ok (bool_decide (is_Some (Js.own_property props key))).
Proof. unfold Js.hasOwnProperty. by intros ->. Qed.

(** Off the documents that hide [hasOwnProperty], [_checkMatch] returns,
    and returns [true] exactly when the specification's [matches] holds. *)
Lemma checkMatch_Matches (q d : value) :
  Spec.shadow_free d = true →
  ∃ b, Collection._checkMatch d q = Ok b ∧ (b = true ↔ Spec.Matches d q).
Proof.
  revert d.
  induction q as [ | qb | qn | qs | qitems IH | qprops IH ] using value_nested_ind;
    intros d Hsf.
  1-4: destruct d as [ | db | dn | ds | ditems | dprops ]; simpl;
    eexists; (split; [reflexivity|]);
    (split;
     [ intros Hb;
       first [ apply Spec.Matches_contains; [done | by apply array_includes_spec]
             | by apply Spec.Matches_equal ]
     | intros HM; inversion HM; subst; simplify_eq/=;
       first [ done | by apply array_includes_spec ] ]).
  - (* queryValue is a sequence *)
    destruct d as [ | db | dn | ds | ditems | dprops ]; simpl;
      try (exists false; split; [reflexivity|];
           split; [done | intros HM; inversion HM; subst; simplify_eq/=]).
    destruct (length ditems =? length qitems)%nat eqn:Hlen; simpl.
    2: { exists false. split; [done|]. split; [done|].
         intros HM; inversion HM; subst; simplify_eq/=.
         apply Nat.eqb_neq in Hlen. done. }
    apply Nat.eqb_eq in Hlen.
    assert (Hloop : ∃ b,
      (fix loop (ds qs : list value) {struct qs} : result bool :=
         match qs, ds with
         | q :: qs', d :: ds' =>
             match Collection._checkMatch d q with
             | Ok true => loop ds' qs'
             | Ok false => Ok false
             | Throw e => Throw e
             end
         | _, _ => Ok true
         end) ditems qitems = Ok b ∧
      (b = true ↔ ∀ i d q, ditems !! i = Some d → qitems !! i = Some q →
                           Spec.Matches d q)).
    { clear -IH Hsf Hlen. simpl in Hsf.
      revert ditems Hsf Hlen.
      induction IH as [|q qs Hq _ IHqs]; intros [|d ds] Hsf Hlen;
        simplify_eq/=.
      - exists true. split; [done|]. split; [|done]. intros _ i d q Hd. done.
      - apply andb_prop in Hsf as [Hd Hds].
        destruct (Hq d Hd) as (b & -> & Hb).
        destruct b.
        + destruct (IHqs ds Hds Hlen) as (b' & -> & Hb').
          exists b'. split; [done|]. rewrite Hb'. split.
          * intros Hall [|i] d' q' ??; simplify_eq/=; [by apply Hb | eauto].
          * intros Hall i d' q' ??. by apply (Hall (S i)).
        + exists false. split; [done|]. split; [done|].
          intros Hall. apply Hb. by apply (Hall 0). }
    destruct Hloop as (b & Hloop & Hb). exists b. split; [done|].
    rewrite Hb. split.
    + intros Hall. by apply Spec.Matches_pairwise.
    + intros HM; inversion HM; subst; simplify_eq/=. done.
  - (* queryValue is a keyed structure *)
    destruct d as [ | db | dn | ds | ditems | dprops ]; simpl;
      try (exists false; split; [reflexivity|];
           split; [done | intros HM; inversion HM; subst; simplify_eq/=]).
    simpl in Hsf. apply andb_prop in Hsf as [Hshadow Hsf].
    apply negb_true_iff, bool_decide_eq_false in Hshadow.
    assert (Hnone : Js.own_property dprops "hasOwnProperty" = None).
    { destruct (Js.own_property dprops "hasOwnProperty"); [|done].
      exfalso. apply Hshadow. eauto. }
    assert (Hloop : ∃ b,
      (fix loop (qs : list (string * value)) : result bool :=
         match qs with
         | [] => Ok true
         | (key, q) :: qs' =>
             match Js.hasOwnProperty "docValue" dprops key with
             | Throw e => Throw e
             | Ok false => Ok false
             | Ok true =>
                 match Js.own_property dprops key with
                 | None => Ok false
                 | Some d =>
                     match Collection._checkMatch d q with
                     | Ok true => loop qs'
                     | Ok false => Ok false
                     | Throw e => Throw e
                     end
                 end
             end
         end) qprops = Ok b ∧
      (b = true ↔ ∀ key q, (key, q) ∈ qprops →
                   ∃ d, Js.own_property dprops key = Some d ∧ Spec.Matches d q)).
    { clear -IH Hsf Hnone.
      induction IH as [|[key q] qs Hq _ IHqs]; simpl in *.
      - exists true. split; [done|]. split; [|done].
        intros _ key q Hin. by apply elem_of_nil in Hin.
      - rewrite hasOwnProperty_shadow_free by done.
        destruct (Js.own_property dprops key) as [d|] eqn:Hd; simpl.
        + try rewrite bool_decide_eq_true_2 by eauto.
          destruct (Hq d (own_property_shadow_free _ _ _ Hsf Hd)) as (b & -> & Hb).
          destruct b.
          * destruct IHqs as (b' & -> & Hb').
            exists b'. split; [done|]. rewrite Hb'. split.
            -- intros Hall key' q' [[= -> ->]|Hin]%elem_of_cons; [|eauto].
               exists d. split; [done|]. by apply Hb.
            -- intros Hall key' q' Hin. apply Hall. by right.
          * exists false. split; [done|]. split; [done|].
            intros Hall. destruct (Hall key q) as (d' & Hd' & HM); [by left|].
            simplify_eq. by apply Hb.
        + try rewrite bool_decide_eq_false_2 by (by intros [? ?]).
          exists false. split; [done|]. split; [done|].
          intros Hall. destruct (Hall key q) as (d' & Hd' & _); [by left|].
          congruence. }
    destruct Hloop as (b & Hloop & Hb). exists b. split; [done|].
    rewrite Hb. split.
    + intros Hall. by apply Spec.Matches_keyed.
    + intros HM; inversion HM; subst; simplify_eq/=. done.
Qed.

Lemma some_text_element (items : list value) (q : string) :
  existsb
    (fun item =>
       match item with
       | JString s =>
           JsString.includes (JsString.toLowerCase s) (JsString.toLowerCase q)
       | _ => false
       end) items = true ↔
  ∃ s, JString s ∈ items ∧ Spec.contains_lowercase s q = true.
Proof.
  rewrite existsb_exists. split.
  - intros ([ | | | s | | ] & Hin & Hs); try done.
    exists s. split; [by apply list_elem_of_In | done].
  - intros (s & Hin & Hs). exists (JString s).
    split; [by apply list_elem_of_In | done].
Qed.

(** Off the documents that hide [hasOwnProperty], [_checkLike] returns,
    and returns [true] exactly when the specification's [like] holds. *)
Lemma checkLike_Likes (q d : value) :
  Spec.shadow_free d = true →
  ∃ b, Collection._checkLike d q = Ok b ∧ (b = true ↔ Spec.Likes d q).
Proof.
  revert d.
  induction q as [ | qb | qn | qs | qitems IH | qprops IH ] using value_nested_ind;
    intros d Hsf.
  1-3: destruct d as [ | db | dn | ds | ditems | dprops ]; simpl;
    eexists; (split; [reflexivity|]);
    (split;
     [ intros Hb;
       first [ apply Spec.Likes_contains; [done | done | by apply array_includes_spec]
             | by apply Spec.Likes_equal ]
     | intros HM; inversion HM; subst; simplify_eq/=;
       first [ done | by apply array_includes_spec ] ]).
  - (* queryValue is a text *)
    destruct d as [ | db | dn | ds | ditems | dprops ]; simpl;
      eexists; (split; [reflexivity|]);
      (split;
       [ intros Hb;
         first [ done
               | by apply Spec.Likes_text
               | apply Spec.Likes_text_element; by apply some_text_element ]
       | intros HM; inversion HM; subst; simplify_eq/=;
         first [ done | by apply some_text_element ] ]).
  - (* queryValue is a sequence *)
    exists false. split; [by destruct d|].
    split; [done|]. intros HM; inversion HM; subst; simplify_eq/=.
  - (* queryValue is a keyed structure *)
    destruct d as [ | db | dn | ds | ditems | dprops ]; simpl;
      try (exists false; split; [reflexivity|];
           split; [done | intros HM; inversion HM; subst; simplify_eq/=]).
    simpl in Hsf. apply andb_prop in Hsf as [Hshadow Hsf].
    apply negb_true_iff, bool_decide_eq_false in Hshadow.
    assert (Hnone : Js.own_property dprops "hasOwnProperty" = None).
    { destruct (Js.own_property dprops "hasOwnProperty"); [|done].
      exfalso. apply Hshadow. eauto. }
    assert (Hloop : ∃ b,
      (fix loop (qs : list (string * value)) : result bool :=
         match qs with
         | [] => Ok true
         | (key, q) :: qs' =>
             match Js.hasOwnProperty "docValue" dprops key with
             | Throw e => Throw e
             | Ok false => Ok false
             | Ok true =>
                 match Js.own_property dprops key with
                 | None => Ok false
                 | Some d =>
                     match Collection._checkLike d q with
                     | Ok true => loop qs'
                     | Ok false => Ok false
                     | Throw e => Throw e
                     end
                 end
             end
         end) qprops = Ok b ∧
      (b = true ↔ ∀ key q, (key, q) ∈ qprops →
                   ∃ d, Js.own_property dprops key = Some d ∧ Spec.Likes d q)).
    { clear -IH Hsf Hnone.
      induction IH as [|[key q] qs Hq _ IHqs]; simpl in *.
      - exists true. split; [done|]. split; [|done].
        intros _ key q Hin. by apply elem_of_nil in Hin.
      - rewrite hasOwnProperty_shadow_free by done.
        destruct (Js.own_property dprops key) as [d|] eqn:Hd; simpl.
        + destruct (Hq d (own_property_shadow_free _ _ _ Hsf Hd)) as (b & -> & Hb).
          destruct b.
          * destruct IHqs as (b' & -> & Hb').
            exists b'. split; [done|]. rewrite Hb'. split.
            -- intros Hall key' q' [[= -> ->]|Hin]%elem_of_cons; [|eauto].
               exists d. split; [done|]. by apply Hb.
            -- intros Hall key' q' Hin. apply Hall. by right.
          * exists false. split; [done|]. split; [done|].
            intros Hall. destruct (Hall key q) as (d' & Hd' & HM); [by left|].
            simplify_eq. by apply Hb.
        + exists false. split; [done|]. split; [done|].
          intros Hall. destruct (Hall key q) as (d' & Hd' & _); [by left|].
          congruence. }
    destruct Hloop as (b & Hloop & Hb). exists b. split; [done|].
    rewrite Hb. split.
    + intros Hall. by apply Spec.Likes_keyed.
    + intros HM; inversion HM; subst; simplify_eq/=. done.
Qed.

(** The text and sequence cases of [_checkLike] never reach
    [hasOwnProperty]: they hold on every document. *)
Lemma checkLike_text_query (d : value) (q : string) :
  Collection._checkLike d (JString q)
  = Ok match d with
       | JString s => Spec.contains_lowercase s q
       | JArray ditems =>
           existsb
             (fun item =>
                match item with
                | JString s => Spec.contains_lowercase s q
                | _ => false
                end) ditems
       | _ => false
       end.
Proof. by destruct d. Qed.

Lemma checkLike_sequence_query (d : value) (qitems : list value) :
  Collection._checkLike d (JArray qitems) = Ok false.
Proof. by destruct d. Qed.

(** The primitive case of [_checkMatch] holds on every document as well. *)
Lemma checkMatch_primitive_query (d q : value) :
  Js.is_primitive q = true →
  Collection._checkMatch d q
  = Ok match d with
       | JArray ditems => Js.array_includes ditems q
       | _ => Js.strict_equals d q
       end.
Proof. by destruct q, d. Qed.

End Predicates.

(** ** Running asynchronous functions *)

Lemma frame_refl w : frame w w.
Proof. done. Qed.

Lemma frame_trans w1 w2 w3 : frame w1 w2 → frame w2 w3 → frame w1 w3.
Proof. unfold frame. intros (-> & -> & ->) (-> & -> & ->). done. Qed.

Lemma frame_file_at w w' p : frame w w' → file_at w' p = file_at w p.
Proof. unfold file_at. by intros (-> & _). Qed.

Section Running.
Context `{Platform}.

Lemma readFile_run (p : path) (w : World) :
  fsp.readFile p w
  = (match file_at w p with
     | Some text => Ok text
     | None => Throw (fsp.ENOENT "open" (path_text p))
     end, traced (ReadFile p) w).
Proof.
  unfold fsp.readFile.
  change (file_at (traced (ReadFile p) w) p) with (file_at w p).
  by destruct (file_at w p).
Qed.

Lemma writeFile_ok (p : path) (data : js_text) (w w' : World) :
  fsp.writeFile p data w = (Ok tt, w') →
  ∃ text files,
    data = Some text
    ∧ dirs w !! dirname p = Some files
    ∧ dirs w' = <[dirname p := <[basename p := text]> files]> (dirs w)
    ∧ denied w' = denied w ∧ now w' = now w ∧ console w' = console w.
Proof.
  unfold fsp.writeFile. simpl. intros Hwrite.
  repeat case_match; simplify_eq; by eexists _, _.
Qed.

Lemma writeFile_inv (p : path) (text : string) (w w' : World) :
  fsp.writeFile p text w = (Ok tt, w') →
  file_at w' p = Some text.
Proof.
  intros (text' & files & [= <-] & _ & Hdirs & _)%writeFile_ok.
  unfold file_at. rewrite Hdirs.
  by rewrite lookup_insert_eq; simpl; rewrite lookup_insert_eq.
Qed.

Lemma writeFile_failure (p : path) (data : js_text) (e : js_error) (w w' : World) :
  fsp.writeFile p data w = (Throw e, w') → w' = traced (WriteFile p data) w.
Proof.
  unfold fsp.writeFile. simpl. intros Hwrite.
  by repeat case_match; simplify_eq.
Qed.



(** ** Making directories *)

Lemma grown_refl (w : World) : grown w w.
Proof. unfold grown. eauto 10. Qed.

Lemma grown_trans (w1 w2 w3 : World) : grown w1 w2 → grown w2 w3 → grown w1 w3.
Proof.
  intros (Hd1 & Hn1 & Hc1 & Hkeep1 & Hnew1) (Hd2 & Hn2 & Hc2 & Hkeep2 & Hnew2).
  repeat split; [congruence..|eauto|].
  intros d files [Hold|Hempty]%Hnew2; [eauto|by right].
Qed.

Lemma frame_grown (w w' : World) : frame w w' → console w' = console w → grown w w'.
Proof.
  intros (Hdirs & Hdenied & Hnow) Hconsole. repeat split; try done.
  - intros d files. by rewrite Hdirs.
  - intros d files. rewrite Hdirs. by left.
Qed.

Lemma grown_traced (c : fs_call) (w : World) : grown w (traced c w).
Proof. by apply frame_grown. Qed.

Lemma grown_file_at (w w' : World) (p : path) :
  grown w w' → file_at w' p = file_at w p.
Proof.
  intros (_ & _ & _ & Hkeep & Hnew). unfold file_at.
  destruct (dirs w !! dirname p) as [files|] eqn:Hdir.
  - by rewrite (Hkeep _ _ Hdir).
  - destruct (dirs w' !! dirname p) as [files|] eqn:Hdir'; [|done].
    destruct (Hnew _ _ Hdir') as [Hold| ->]; [congruence|done].
Qed.

Lemma grown_dir (w w' : World) (d : string) (files : gmap string string) :
  grown w w' → dirs w !! d = Some files → dirs w' !! d = Some files.
Proof. intros (_ & _ & _ & Hkeep & _). apply Hkeep. Qed.

Lemma make_run (target dir : string) (w w' : World) (r : result unit) :
  fsp.make target dir w = (r, w') →
  grown w w' ∧ (r = Ok tt → is_Some (dirs w' !! dir)).
Proof.
  unfold fsp.make. intros Hmake.
  repeat (case_match || case_bool_decide); simplify_eq;
    try (split; [apply grown_refl|by eauto]).
  simpl. split; [|by rewrite lookup_insert_eq; eauto].
  repeat split; try done; simpl.
  - intros d files Hd. rewrite lookup_insert_ne; [done|congruence].
  - intros d files. destruct (decide (d = dir)) as [->|Hne].
    + rewrite lookup_insert_eq. intros [= <-]. by right.
    + rewrite lookup_insert_ne by done. by left.
Qed.

Lemma walk_run (target : string) (steps : list string) :
  ∀ (w w' : World) (r : result unit),
    fsp.walk target steps w = (r, w') →
    grown w w' ∧ (r = Ok tt → ∀ d, d ∈ steps → is_Some (dirs w' !! d)).
Proof.
  induction steps as [|dir rest IH]; intros w w' r; simpl.
  - intros [= <- <-]. split; [apply grown_refl|].
    intros _ d Hd. by apply elem_of_nil in Hd.
  - unfold bind.
    destruct (fsp.make target dir w) as [[[]|e] w1] eqn:Hmake;
      apply make_run in Hmake as [Hgrown1 Hmade].
    + intros [Hgrown2 Hrest]%IH. split; [by eapply grown_trans|].
      intros -> d [->|Hin]%elem_of_cons; [|by apply Hrest].
      destruct Hmade as [files Hfiles]; [done|].
      exists files. by apply (grown_dir w1).
    + by intros [= <- <-].
Qed.

Lemma lineage_last (dir : string) : dir ∈ fsp.lineage dir.
Proof. apply elem_of_app. right. by left. Qed.

Lemma mkdir_run (dir : string) (w w' : World) (r : result unit) :
  fsp.mkdir dir w = (r, w') →
  grown w w' ∧ (r = Ok tt → is_Some (dirs w' !! dir)).
Proof.
  unfold fsp.mkdir. simpl.
  destruct (dirs w !! dir) as [files|] eqn:Hdir.
  { intros [= <- <-]. split; [apply grown_traced|]. simpl. eauto. }
  destruct (fsp.has_nul dir).
  { intros [= <- <-]. split; [apply grown_traced|done]. }
  intros [Hgrown Hmade]%walk_run. split.
  - eapply grown_trans; [apply grown_traced|done].
  - intros ->. apply Hmade; [done|]. apply lineage_last.
Qed.

Lemma stat_run (dir : string) (w : World) :
  ∃ r, fsp.stat_isDirectory dir w = (r, traced (Stat dir) w)
       ∧ (r = Ok true ↔ is_Some (dirs w !! dir)).
Proof.
  unfold fsp.stat_isDirectory. simpl.
  destruct (dirs w !! dir) as [files|]; [by eexists; eauto|].
  repeat case_match; eexists; (split; [done|]); split; try done; by intros [? ?].
Qed.

(** [tryRepairAndParseJson] settles with [Spec.decode] and touches the
    console only. *)
Lemma tryRepairAndParseJson_run (text label : string) (w : World) :
  ∃ w', Utils.tryRepairAndParseJson text label w = (Spec.decode text, w')
        ∧ frame w w'.
Proof.
  unfold Utils.tryRepairAndParseJson, Spec.decode. run.
  destruct (JSON_parse text) as [v|parseError]; [by eexists|].
  destruct (is_SyntaxError parseError); [|by eexists].
  destruct (jsonrepair text) as [repaired|repairError]; simpl; [|by eexists].
  destruct (JSON_parse repaired); by eexists.
Qed.

End Running.

(** ** The document store *)

Section Store.
Context `{Platform}.
Variable rootDbPath collectionName : string.

#[local] Abbreviation _getDocPath := (Collection._getDocPath rootDbPath collectionName).
#[local] Abbreviation set := (Collection.set rootDbPath collectionName).
#[local] Abbreviation get := (Collection.get rootDbPath collectionName).
#[local] Abbreviation del := (Collection.del rootDbPath collectionName).
#[local] Abbreviation all := (Collection.all rootDbPath collectionName).
#[local] Abbreviation scan := (Collection.scan rootDbPath collectionName).
#[local] Abbreviation collectionPath :=
  (Collection.collectionPath rootDbPath collectionName).

Lemma getDocPath_rejected (docId : option value) :
  Spec.rejected docId →
  ∃ e, _getDocPath docId = Throw e ∧ Spec.InvalidIdentifier e.
Proof.
  unfold Spec.rejected, Collection._getDocPath, Spec.InvalidIdentifier.
  destruct docId as [[ | | | id | | ]|]; try (intros _; eexists; split; [done|by left]).
  intros Hbad.
  destruct (JsString.trim_is_empty id); [eexists; split; [done|by left]|].
  destruct (JsString.includes (Utils.sanitize id) "..");
    [eexists; split; [done|right; left; by eexists]|].
  destruct (200 <? String.length (Utils.sanitize id))%nat eqn:Hlen;
    [eexists; split; [done|right; right; by eexists]|].
  apply Nat.ltb_ge in Hlen. destruct Hbad as [?|[?|?]]; [done|done|lia].
Qed.

(** C5, amended. For every identifier that is not a string or is blank
    (the empty string included), whose sanitised form still contains the
    traversal sequence, or whose sanitised form is longer than 200
    characters: [get] and [del], and [set] with a JSON value or with a
    value [JSON.stringify] returns [undefined] on (a function, a symbol),
    are rejected with the invalid-identifier error; [set] with [undefined]
    itself, or with a value [JSON.stringify] throws on, is rejected for the
    value, which is looked at first.  Every one of these calls leaves the
    world it was given: nothing was written, read or removed, and the
    trace of file system calls did not grow. *)
Theorem invalid_identifier_rejected_before_io (docId : option value) :
  Spec.rejected docId →
  ∃ e, Spec.InvalidIdentifier e
       ∧ (∀ (data : value) (w : World), set docId (Data data) w = (Throw e, w))
       ∧ (∀ w : World, set docId NotJson w = (Throw e, w))
       ∧ (∀ w : World, get docId w = (Throw e, w))
       ∧ (∀ w : World, del docId w = (Throw e, w))
       ∧ (∀ w : World, set docId Undefined w = (Throw Collection.undefined_data, w))
       ∧ (∀ (cause : js_error) (w : World),
             set docId (Unserializable cause) w
             = (Throw (Collection.not_serializable docId cause), w)).
Proof.
  intros (e & He & Hinv)%getDocPath_rejected.
  exists e. split; [done|].
  unfold Collection.set, Collection.get, Collection.del.
  repeat split; intros; run; by rewrite ?He.
Qed.

(** C7. When the direct parse fails with a syntax error and the repair, or
    the parse of the repaired text, fails as well, [tryRepairAndParseJson]
    throws the error of the first parse. *)
Theorem decode_rethrows_original_parse_error
    (jsonString filePathForLogging : string) (parseError : js_error) (w : World) :
  JSON_parse jsonString = Throw parseError →
  is_SyntaxError parseError = true →
  ((∃ repairError, jsonrepair jsonString = Throw repairError)
   ∨ (∃ repaired reparseError,
        jsonrepair jsonString = Ok repaired
        ∧ JSON_parse repaired = Throw reparseError)) →
  (Utils.tryRepairAndParseJson jsonString filePathForLogging w).1
  = Throw parseError.
Proof.
  intros Hparse Hsyntax Hrepair.
  unfold Utils.tryRepairAndParseJson. run.
  rewrite Hparse, Hsyntax. simpl.
  destruct Hrepair as [(repairError & ->)|(repaired & reparseError & -> & Hre)];
    simpl; [done|]. by rewrite Hre.
Qed.




(** [ensureDirExists] makes directories only; it resolves when the
    directory is there at the end, and throws when it is not. *)
Lemma ensureDirExists_run (dirPath : string) (w w' : World) (r : result unit) :
  Utils.ensureDirExists dirPath w = (r, w') →
  grown w w'
  ∧ match r with
    | Ok _ => is_Some (dirs w' !! dirPath)
    | Throw e =>
        dirs w' !! dirPath = None
        ∧ ∃ cause, e = Error ("Failed to create directory or path is not a directory: "
                              +:+ dirPath +:+ ". " +:+ message cause)
    end.
Proof.
  unfold Utils.ensureDirExists. unfold_m.
  destruct (fsp.mkdir dirPath w) as [[[]|cause] w1] eqn:Hmkdir;
    apply mkdir_run in Hmkdir as [Hgrown Hmade].
  { intros [= <- <-]. auto. }
  destruct (stat_run dirPath w1) as (stat & -> & Hstat).
  assert (Hgrown' : grown w (traced (Stat dirPath) w1))
    by (eapply grown_trans; [done|apply grown_traced]).
  destruct stat as [[]|e].
  - intros [= <- <-]. split; [done|]. by apply Hstat.
  - intros [= <- <-]. split; [done|]. split; [|by eexists]. simpl.
    destruct (dirs w1 !! dirPath) eqn:Hdir; [|done].
    destruct Hstat as [_ Hstat]. by discriminate Hstat.
  - intros [= <- <-]. split; [done|]. split; [|by eexists]. simpl.
    destruct (dirs w1 !! dirPath) eqn:Hdir; [|done].
    destruct Hstat as [_ Hstat]. by discriminate Hstat.
Qed.

Lemma ensureDirExists_clock (dirPath : string) (w w' : World) (r : result unit) :
  Utils.ensureDirExists dirPath w = (r, w') → now w' = now w.
Proof. by intros [(_ & Hnow & _) _]%ensureDirExists_run. Qed.

Lemma append_empty_l (s : string) : EmptyString +:+ s = s.
Proof. done. Qed.

Lemma sanitize_safe_name (id : string) : Utils.sanitize id = Spec.safe_name id.
Proof.
  unfold Utils.sanitize.
  induction id as [|c rest IH]; simpl; [done|].
  destruct (Utils.is_separator c) eqn:Hsep; simpl.
  - by rewrite append_empty_l, IH.
  - destruct (Utils.is_reserved c); simpl; by rewrite ?append_empty_l, IH.
Qed.

(** What a successful [backupDocument] has done. *)
Lemma backupDocument_writes (docId jsonDataString : string) (w w' : World)
    (backupFilePath : path) :
  Utils.backupDocument rootDbPath collectionName docId jsonDataString w
  = (Ok backupFilePath, w') →
  backupFilePath
  = Path (path_join [rootDbPath; ".backup"; collectionName])
      (Utils.sanitize docId +:+ "_" +:+ pretty (now w) +:+ ".json.bak")
  ∧ file_at w' backupFilePath = Some jsonDataString.
Proof.
  unfold Utils.backupDocument. run.
  destruct (Utils.ensureDirExists _ w) as [[[]|e] w1] eqn:Hdir; simpl; [|done].
  apply ensureDirExists_clock in Hdir. rewrite Hdir.
  destruct (fsp.writeFile _ _ w1) as [[[]|e] w2] eqn:Hwrite;
    simpl; [|done].
  apply (writeFile_inv _ jsonDataString) in Hwrite. by intros [= <- <-].
Qed.

(** [set] once the data is known to have a serialisation, which is a
    text or [undefined]. *)
Lemma set_run (docId : option value) (data : js_data) (text : js_text) (w : World) :
  data ≠ Undefined →
  stringify data = Ok text →
  set docId data w
  = match _getDocPath docId with
    | Throw e => (Throw e, w)
    | Ok docPath =>
        match fsp.writeFile docPath text w with
        | (Ok _, w1) =>
            (Ok (Collection.SetResult true docId (basename docPath)), w1)
        | (Throw writeError, w1) =>
            match
              Utils.backupDocument rootDbPath collectionName
                (Collection.interpolate docId) text
                (logged Err
                   (Collection.write_failure_line collectionName docId docPath
                      writeError) w1)
            with
            | (Ok _, w2) =>
                (Throw (Error ("Failed to set document '"
                               +:+ Collection.interpolate docId +:+ "': "
                               +:+ message writeError +:+ ". Data was backed up.")),
                 w2)
            | (Throw backupFailureError, w2) =>
                (Throw (Error ("Failed to set document '"
                               +:+ Collection.interpolate docId
                               +:+ "' and also failed to backup: "
                               +:+ message writeError +:+ ". Backup failure: "
                               +:+ message backupFailureError)), w2)
            end
        end
    end.
Proof.
  intros Hdefined Hstringify. unfold Collection.set.
  destruct data as [|cause|v|]; [done|..]; unfold_m; rewrite Hstringify;
    cbv beta iota;
    (destruct (_getDocPath docId) as [docPath|e]; [|done]);
    (destruct (fsp.writeFile docPath text w) as [[[]|writeError] w1]; [done|]);
    by destruct (Utils.backupDocument _ _ _ _ _) as [[?|?] ?].
Qed.

(** C4. For a valid identifier and a document value, when the write of
    the document fails, [set] logs one line and runs [backupDocument] on
    the text it had already serialised.  A successful backup has written
    that text to the file [<sanitizedId>_<Date.now()>.json.bak] of the
    directory [path.join(rootDbPath, '.backup', collectionName)], where
    the sanitised identifier is the identifier with each separator
    replaced by an underscore and the reserved characters removed, and
    [set] then throws the error that says the data was backed up; when the
    backup throws, [set] throws the error that names the write error and
    the backup error. *)
Theorem set_backs_up_on_write_failure
    (id : string) (data : value) (docPath : path) (writeError : js_error)
    (w w1 : World) :
  _getDocPath (Some (JString id)) = Ok docPath →
  fsp.writeFile docPath (JSON_stringify data) w = (Throw writeError, w1) →
  match
    Utils.backupDocument rootDbPath collectionName id (JSON_stringify data)
      (logged Err
         (Collection.write_failure_line collectionName (Some (JString id))
            docPath writeError) w1)
  with
  | (Ok backupFilePath, w2) =>
      backupFilePath
      = Path (path_join [rootDbPath; ".backup"; collectionName])
          (Spec.safe_name id +:+ "_" +:+ pretty (now w) +:+ ".json.bak")
      ∧ file_at w2 backupFilePath = Some (JSON_stringify data)
      ∧ set (Some (JString id)) (Data data) w
        = (Throw (Error ("Failed to set document '" +:+ id +:+ "': "
                         +:+ message writeError +:+ ". Data was backed up.")), w2)
  | (Throw backupError, w2) =>
      set (Some (JString id)) (Data data) w
      = (Throw (Error ("Failed to set document '" +:+ id
                       +:+ "' and also failed to backup: "
                       +:+ message writeError +:+ ". Backup failure: "
                       +:+ message backupError)), w2)
  end.
Proof.
  intros Hpath Hwrite.
  pose proof (writeFile_failure _ _ _ _ _ Hwrite) as Hw1.
  rewrite (set_run _ _ (text_of (JSON_stringify data))) by done.
  rewrite Hpath, Hwrite. simpl.
  destruct (Utils.backupDocument _ _ _ _ _) as [[bp|be] w2] eqn:Hbackup;
    simpl; [|reflexivity].
  apply backupDocument_writes in Hbackup as [-> Hfile]. simpl in *.
  rewrite Hw1 in *. by rewrite <- sanitize_safe_name.
Qed.

Lemma set_inv (docId : option value) (data : value) (w w' : World)
    (r : Collection.set_result) :
  set docId (Data data) w = (Ok r, w') →
  ∃ p, _getDocPath docId = Ok p
       ∧ file_at w' p = Some (JSON_stringify data)
       ∧ r = Collection.SetResult true docId (basename p).
Proof.
  rewrite (set_run _ _ (text_of (JSON_stringify data))) by done.
  destruct (_getDocPath docId) as [p|e]; [|done].
  destruct (fsp.writeFile p (JSON_stringify data) w) as [[[]|e] w1] eqn:Hwrite.
  - intros [= <- <-]. exists p. eauto using writeFile_inv.
  - by destruct (Utils.backupDocument _ _ _ _ _) as [[?|?] ?].
Qed.

(** C2, amended. Sanitisation replaces each separator [/] and [\] by an
    underscore and removes the characters [<], [>], [:], [|], [?], [*] and
    the double quote; the traversal and length checks look at that
    sanitised identifier; and for an identifier that passes them, the
    document path, and the file name [set] reports to its caller, is the
    sanitised identifier followed by [.json]. *)
Theorem document_filename_is_sanitized_identifier (id : string) (p : path) :
  _getDocPath (Some (JString id)) = Ok p →
  Utils.sanitize id = Spec.safe_name id
  ∧ JsString.includes (Spec.safe_name id) ".." = false
  ∧ (String.length (Spec.safe_name id) ≤ 200)%nat
  ∧ p = Path collectionPath (Spec.safe_name id +:+ ".json")
  ∧ ∀ (data : value) (w w' : World) (r : Collection.set_result),
      set (Some (JString id)) (Data data) w = (Ok r, w') →
      Collection.set_path r = Spec.safe_name id +:+ ".json".
Proof.
  intros Hp. split; [apply sanitize_safe_name|].
  assert (Hshape : JsString.includes (Spec.safe_name id) ".." = false
                   ∧ (String.length (Spec.safe_name id) ≤ 200)%nat
                   ∧ p = Path collectionPath (Spec.safe_name id +:+ ".json")).
  { generalize Hp. unfold Collection._getDocPath. rewrite sanitize_safe_name.
    destruct (JsString.trim_is_empty id); [done|].
    destruct (JsString.includes (Spec.safe_name id) ".."); [done|].
    destruct (200 <? String.length (Spec.safe_name id))%nat eqn:Hlen; [done|].
    apply Nat.ltb_ge in Hlen. by intros [= <-]. }
  destruct Hshape as (Hdots & Hlen & Hname). repeat split; [done..|].
  intros data w w' r (p' & Hp' & _ & ->)%set_inv.
  rewrite Hp in Hp'. injection Hp' as <-. by rewrite Hname.
Qed.

Lemma get_run (docId : option value) (p : path) (w : World) :
  _getDocPath docId = Ok p →
  ∃ w', get docId w = (Spec.read_outcome docId (file_at w p), w') ∧ frame w w'.
Proof.
  intros Hp. unfold Collection.get. unfold_m. rewrite Hp, readFile_run.
  unfold Spec.read_outcome.
  destruct (file_at w p) as [text|]; simpl; [|by eexists].
  destruct (tryRepairAndParseJson_run text (path_text p) (traced (ReadFile p) w))
    as (w' & -> & Hframe).
  destruct (Spec.decode text) as [v|e]; [by eexists|].
  destruct (is_ENOENT e); by eexists.
Qed.


(** ** The scan *)

Lemma frame_traced (c : fs_call) (w : World) : frame w (traced c w).
Proof. done. Qed.

Lemma frame_logged (l : log_level) (msg : string) (w : World) :
  frame w (logged l msg w).
Proof. done. Qed.

Lemma frame_dir (w w' : World) (dir : string) :
  frame w w' → dirs w' !! dir = dirs w !! dir.
Proof. by intros (-> & _). Qed.

Create HintDb frame.
#[local] Hint Resolve frame_refl frame_trans frame_traced frame_logged : frame.

(** Without a [search] block, the loop of [all] keeps exactly what
    [Spec.scanned] describes, file by file. *)
Lemma scan_unfiltered (query : option value) (files : gmap string string)
    (names : list string) :
  Collection.search_of query = None →
  ∀ (results : list value) (w : World),
    dirs w !! collectionPath = Some files →
    ∃ w', scan query names results w
          = (Ok (results ++ flat_map (Spec.scanned files) names)%list, w')
          ∧ frame w w'.
Proof.
  intros Hsearch.
  induction names as [|fileName rest IH]; intros results w Hdir; simpl.
  { exists w. by rewrite app_nil_r. }
  unfold Spec.scanned at 1.
  destruct (JsString.endsWith fileName ".json"); simpl; [|by apply IH].
  unfold_m. rewrite readFile_run.
  unfold file_at. simpl. rewrite Hdir. simpl.
  set (w1 := traced (ReadFile (Path collectionPath fileName)) w).
  assert (Hdir1 : dirs w1 !! collectionPath = Some files) by done.
  destruct (files !! fileName) as [text|]; simpl.
  - destruct (tryRepairAndParseJson_run text
                (path_text (Path collectionPath fileName)) w1)
      as (w2 & -> & Hframe2).
    assert (Hdir2 : dirs w2 !! collectionPath = Some files)
      by (by rewrite (frame_dir w1 w2)).
    destruct (Spec.decode text) as [v|e]; simpl.
    + destruct (Js.truthy v); simpl.
      * rewrite Hsearch.
        destruct (IH (results ++ [v])%list w2 Hdir2) as (w' & -> & Hframe).
        exists w'. rewrite <- app_assoc. split; [done|].
        eauto with frame.
      * destruct (IH results w2 Hdir2) as (w' & -> & Hframe).
        exists w'. split; [done|]. eauto with frame.
    + match goal with
      | |- context [scan query rest results (logged ?l ?msg w2)] =>
          destruct (IH results (logged l msg w2)) as (w' & -> & Hframe);
            [done|]
      end.
      exists w'. split; [done|].
      eauto with frame.
  - match goal with
    | |- context [scan query rest results (logged ?l ?msg w1)] =>
        destruct (IH results (logged l msg w1)) as (w' & -> & Hframe);
          [done|]
    end.
    exists w'. split; [done|].
    eauto with frame.
Qed.

Lemma ensureDirExists_existing (dir : string) (files : gmap string string) (w : World) :
  dirs w !! dir = Some files →
  Utils.ensureDirExists dir w = (Ok tt, traced (Mkdir dir) w).
Proof.
  intros Hdir. unfold Utils.ensureDirExists, fsp.mkdir. unfold_m. simpl.
  by rewrite Hdir.
Qed.

(** An unfiltered [all] over an existing collection directory. *)
Lemma all_unfiltered (query : option value) (files : gmap string string) (w : World) :
  Collection.search_of query = None →
  dirs w !! collectionPath = Some files →
  (all query w).1 = Ok (flat_map (Spec.scanned files) (map_to_list files).*1).
Proof.
  intros Hsearch Hdir. unfold Collection.all. unfold_m.
  rewrite (ensureDirExists_existing _ files) by done.
  unfold fsp.readdir. simpl. rewrite Hdir.
  match goal with
  | |- context [scan query ?names [] ?w1] =>
      destruct (scan_unfiltered query files names Hsearch [] w1) as (w' & -> & _);
        [done|]
  end.
  done.
Qed.

Lemma flat_map_agree {A B} (f g : A → list B) (l : list A) :
  (∀ x, x ∈ l → f x = g x) → flat_map f l = flat_map g l.
Proof.
  induction l as [|x l IH]; intros Hfg; simpl; [done|].
  rewrite (Hfg x) by left. f_equal. apply IH. intros y Hy. apply Hfg. by right.
Qed.

(** C6, amended. Over an existing collection directory in which every
    [.json] file is the file of some identifier, a scan with no query
    returns, in directory order, what [get] resolves with on the
    identifier of each [.json] file, leaving out the files for which
    [get] throws (they do not decode) and those whose document is falsy
    ([null], [false], zero or NaN, the empty string). *)
Theorem scan_is_get_on_truthy_documents
    (w : World) (files : gmap string string) (identifier : string → string) :
  dirs w !! collectionPath = Some files →
  (∀ fileName text,
      files !! fileName = Some text →
      JsString.endsWith fileName ".json" = true →
      _getDocPath (Some (JString (identifier fileName)))
      = Ok (Path collectionPath fileName)) →
  (all None w).1
  = Ok (flat_map
          (fun fileName =>
             if JsString.endsWith fileName ".json"
             then Spec.got (get (Some (JString (identifier fileName))) w).1
             else [])
          (map_to_list files).*1).
Proof.
  intros Hdir Hnames.
  rewrite (all_unfiltered None files) by done. f_equal.
  apply flat_map_agree. intros fileName Hin.
  apply list_elem_of_fmap in Hin as ([name text] & -> & Hin).
  apply elem_of_map_to_list in Hin. simpl.
  unfold Spec.scanned.
  destruct (JsString.endsWith name ".json") eqn:Hjson; [|done].
  destruct (get_run _ _ w (Hnames name text Hin Hjson)) as (w' & -> & _).
  simpl. unfold file_at. simpl. rewrite Hdir. simpl. rewrite Hin.
  unfold Spec.read_outcome, Spec.got.
  destruct (Spec.decode text) as [v|e]; [done|].
  by destruct (is_ENOENT e).
Qed.

Lemma scan_search_of (query1 query2 : option value) (names : list string) :
  Collection.search_of query1 = Collection.search_of query2 →
  ∀ (results : list value) (w : World),
    scan query1 names results w = scan query2 names results w.
Proof.
  intros Hsearch.
  induction names as [|fileName rest IH]; intros results w; simpl; [done|].
  destruct (JsString.endsWith fileName ".json"); simpl; [|by apply IH].
  unfold_m.
  destruct (fsp.readFile _ w) as [[rawContent|e] w1]; [|by apply IH].
  destruct (Utils.tryRepairAndParseJson _ _ w1) as [[v|e] w2]; [|by apply IH].
  destruct (Js.truthy v); simpl; [|by apply IH].
  rewrite Hsearch. destruct (Collection.search_of query2) as [search|]; [|by apply IH].
  destruct (Collection.matchesQuery search v) as [[]|e]; [by apply IH..|done].
Qed.

Lemma truthy_falsy (v : value) : Js.truthy v = negb (Spec.falsy v).
Proof. destruct v as [ | [] | n | [|c s] | | ]; done. Qed.

Lemma scanned_listed (files : gmap string string) (fileName : string) :
  Spec.scanned files fileName = Spec.listed files fileName.
Proof.
  unfold Spec.scanned, Spec.listed.
  destruct (JsString.endsWith fileName ".json"); [|done].
  destruct (files !! fileName) as [text|]; [|done].
  destruct (Spec.decode text) as [v|e]; [|done].
  rewrite truthy_falsy. by destruct (Spec.falsy v).
Qed.

(** C10, amended. For every query that has no [search] property, whatever
    else it carries, [all] does exactly what it does without a query: same
    result, same world.  Over an existing collection directory that result
    is, in directory order, the decoded value of every [.json] file that
    decodes, none filtered out, except the values that are falsy ([null],
    [false], zero, NaN, the empty string), which a scan leaves out with or
    without a query. *)
Theorem query_without_search_is_ignored (query : value) (w : World) :
  JsProp.property query "search" = None →
  all (Some query) w = all None w
  ∧ ∀ files : gmap string string,
      dirs w !! collectionPath = Some files →
      (all (Some query) w).1
      = Ok (flat_map (Spec.listed files) (map_to_list files).*1).
Proof.
  intros Hnone.
  assert (Hsearch : Collection.search_of (Some query) = None).
  { unfold Collection.search_of. rewrite Hnone. by destruct (Js.truthy query). }
  split.
  - unfold Collection.all. unfold_m.
    destruct (Utils.ensureDirExists _ w) as [[[]|e] w1];
      [|by destruct (is_ENOENT e)].
    destruct (fsp.readdir _ w1) as [[names|e] w2];
      [|by destruct (is_ENOENT e)].
    by apply scan_search_of.
  - intros files Hdir. rewrite (all_unfiltered _ files) by done. f_equal.
    apply flat_map_agree. intros fileName _. apply scanned_listed.
Qed.

End Store.

(** ** The claims on concrete inputs *)

Section Concrete.
Import Example.

(** The match and like examples of section 8 of the specification. *)
Example match_examples :
  let docContent :=
    JObject [("category", JString "Electronics");
             ("tags", JArray [JString "a"; JString "b"])] in
  let search_match fields := JObject [("match", JObject fields)] in
  Collection.matchesQuery (search_match [("category", JString "Electronics")]) docContent
  = Ok true
  ∧ Collection.matchesQuery (search_match [("category", JString "Books")]) docContent
    = Ok false
  ∧ Collection.matchesQuery (search_match [("tags", JString "a")]) docContent
    = Ok true
  ∧ Collection.matchesQuery (search_match [("price", JNumber 25)]) docContent
    = Ok false.
Proof. repeat split. Qed.

Example like_examples :
  let docContent := JObject [("name", JString "Laptop Pro")] in
  let search_like fields := JObject [("like", JObject fields)] in
  Collection.matchesQuery (search_like [("name", JString "pro")]) docContent = Ok true
  ∧ Collection.matchesQuery (search_like [("name", JString "phone")]) docContent
    = Ok false.
Proof. repeat split. Qed.

(** Documents and a file that is not one: the scan keeps the truthy
    documents; [set] then [get] reads back what was written. *)
Example scan_and_round_trip :
  (all None db_with_files).1 = Ok [JBool true]
  ∧ (get (id "item001") (set (id "item001") (Data (JBool true)) empty_db).2).1
    = Ok (JBool true).
Proof. split; vm_compute; reflexivity. Qed.

(** Both ways [set] fails when the write fails. *)
Example set_failure_messages :
  (set (id "x") (Data JNull) db_without_collection).1
  = Throw (Error "Failed to set document 'x': ENOENT: no such file or directory, open 'db/users/x.json'. Data was backed up.")
  ∧ (set (id "x") (Data JNull) db_without_backup).1
    = Throw (Error "Failed to set document 'x' and also failed to backup: ENOENT: no such file or directory, open 'db/users/x.json'. Backup failure: Failed to create directory or path is not a directory: db/.backup/users. EACCES: permission denied, mkdir 'db/.backup/users'").
Proof. split; vm_compute; reflexivity. Qed.

#[local] Abbreviation shadowed_method :=
  (Throw (TypeError "docValue.hasOwnProperty is not a function") : result bool).

(** C1. On a document that has a field named [hasOwnProperty],
    [_checkMatch] with a keyed query throws a [TypeError]: it neither
    returns [true] where the specification's [matches] holds (first
    query), nor [false] where it does not (second query). *)
Theorem checkMatch_throws_on_shadowed_hasOwnProperty :
  let docValue := JObject [("hasOwnProperty", JBool true); ("a", JString "x")] in
  (Spec.Matches docValue (JObject [("a", JString "x")])
   ∧ Collection._checkMatch docValue (JObject [("a", JString "x")]) = shadowed_method)
  ∧ (¬ Spec.Matches docValue (JObject [("b", JString "x")])
     ∧ Collection._checkMatch docValue (JObject [("b", JString "x")]) = shadowed_method).
Proof.
  simpl. repeat split.
  - apply Spec.Matches_keyed. intros key q [= -> ->]%list_elem_of_singleton.
    exists (JString "x"). split; [done|]. by apply Spec.Matches_equal.
  - intros HM. inversion HM as [ | | | dprops qprops Hall ]; subst; try done.
    destruct (Hall "b" (JString "x")) as (d & Hd & _); [by left|]. done.
Qed.

(** C3. On a document that has a field named [hasOwnProperty],
    [_checkLike] with a keyed query throws a [TypeError]: it neither
    returns [true] where the specification's [like] holds (first query),
    nor [false] where it does not (second query). *)
Theorem checkLike_throws_on_shadowed_hasOwnProperty :
  let docValue :=
    JObject [("hasOwnProperty", JBool true); ("name", JString "Laptop Pro")] in
  (Spec.Likes docValue (JObject [("name", JString "pro")])
   ∧ Collection._checkLike docValue (JObject [("name", JString "pro")]) = shadowed_method)
  ∧ (¬ Spec.Likes docValue (JObject [("title", JString "pro")])
     ∧ Collection._checkLike docValue (JObject [("title", JString "pro")]) = shadowed_method).
Proof.
  simpl. repeat split.
  - apply Spec.Likes_keyed. intros key q [= -> ->]%list_elem_of_singleton.
    exists (JString "Laptop Pro"). split; [done|]. by apply Spec.Likes_text.
  - intros HM. inversion HM as [ | | | | dprops qprops Hall ]; subst; try done.
    destruct (Hall "title" (JString "pro")) as (d & Hd & _); [by left|]. done.
Qed.

(** C2 fails as stated: the identifier [a/b] passes the checks, and its
    file is [a_b.json], not the stripped [ab.json]. *)
Lemma separator_is_replaced_not_stripped :
  getDocPath (id "a/b") = Ok (Path "db/users" "a_b.json")
  ∧ (set (id "a/b") (Data JNull) empty_db).1
    = Ok (Collection.SetResult true (id "a/b") "a_b.json")
  ∧ Spec.strip "a/b" +:+ ".json" = "ab.json"
  ∧ "a_b.json" ≠ Spec.strip "a/b" +:+ ".json".
Proof. repeat split; done. Qed.

(** The identifier [a/b] passes the checks of [_getDocPath]. *)
Lemma document_filename_witness :
  getDocPath (id "a/b") = Ok (Path "db/users" "a_b.json")
  ∧ (Utils.sanitize "a/b" = Spec.safe_name "a/b"
     ∧ JsString.includes (Spec.safe_name "a/b") ".." = false
     ∧ (String.length (Spec.safe_name "a/b") ≤ 200)%nat
     ∧ Path "db/users" "a_b.json"
       = Path (Collection.collectionPath root users) (Spec.safe_name "a/b" +:+ ".json")
     ∧ ∀ (data : value) (w w' : World) (r : Collection.set_result),
         set (id "a/b") (Data data) w = (Ok r, w') →
         Collection.set_path r = Spec.safe_name "a/b" +:+ ".json").
Proof.
  split; [reflexivity|].
  apply (document_filename_is_sanitized_identifier root users "a/b"). reflexivity.
Defined.

(** Writing [a/b:c] when the collection directory is gone: the write
    fails and the backup succeeds, under the name [a_bc]. *)
Lemma set_backs_up_witness :
  let docPath := Path "db/users" "a_bc.json" in
  let writeError := fsp.ENOENT "open" "db/users/a_bc.json" in
  let w := db_without_collection in
  let w1 := traced (WriteFile docPath "null") w in
  let backupFilePath := Path "db/.backup/users" "a_bc_1700000000000.json.bak" in
  getDocPath (id "a/b:c") = Ok docPath
  ∧ fsp.writeFile docPath (JSON_stringify JNull) w = (Throw writeError, w1)
  ∧ (backupFilePath
     = Path (path_join [root; ".backup"; users])
         (Spec.safe_name "a/b:c" +:+ "_" +:+ pretty (now w) +:+ ".json.bak")
     ∧ file_at (set (id "a/b:c") (Data JNull) w).2 backupFilePath = Some "null"
     ∧ set (id "a/b:c") (Data JNull) w
       = (Throw (Error "Failed to set document 'a/b:c': ENOENT: no such file or directory, open 'db/users/a_bc.json'. Data was backed up."),
          (set (id "a/b:c") (Data JNull) w).2)).
Proof.
  intros docPath writeError w w1 backupFilePath.
  assert (Hpath : getDocPath (id "a/b:c") = Ok docPath) by reflexivity.
  assert (Hwrite : fsp.writeFile docPath (JSON_stringify JNull) w
                   = (Throw writeError, w1)) by reflexivity.
  split; [exact Hpath|]. split; [exact Hwrite|].
  pose proof (set_backs_up_on_write_failure root users "a/b:c" JNull docPath
                writeError w w1 Hpath Hwrite) as Hbackup.
  vm_compute in Hbackup. vm_compute. exact Hbackup.
Defined.

(** C5 fails as stated: with the empty identifier, [set] without a value
    or with a value [JSON.stringify] throws on is rejected for the value,
    not with the invalid-identifier error. *)
Lemma undefined_data_is_rejected_first :
  let bigint := Unserializable (TypeError "Do not know how to serialize a BigInt") in
  Spec.rejected (id EmptyString)
  ∧ (set (id EmptyString) Undefined empty_db = (Throw Collection.undefined_data, empty_db)
     ∧ ¬ Spec.InvalidIdentifier Collection.undefined_data)
  ∧ (set (id EmptyString) bigint empty_db
     = (Throw (Error "Data for document ID '' is not JSON serializable: Do not know how to serialize a BigInt"),
        empty_db)
     ∧ ¬ Spec.InvalidIdentifier
           (Error "Data for document ID '' is not JSON serializable: Do not know how to serialize a BigInt")).
Proof.
  simpl. split; [by left|].
  split; (split; [done|]); intros [Hblank|[[i Hdots]|[i Hlong]]]; discriminate.
Qed.

(** An identifier that keeps the traversal sequence. *)
Lemma invalid_identifier_witness :
  Spec.rejected (id "../secret")
  ∧ ∃ e, Spec.InvalidIdentifier e
         ∧ (∀ (data : value) (w : World),
               set (id "../secret") (Data data) w = (Throw e, w))
         ∧ (∀ w : World, set (id "../secret") NotJson w = (Throw e, w))
         ∧ (∀ w : World, get (id "../secret") w = (Throw e, w))
         ∧ (∀ w : World, del (id "../secret") w = (Throw e, w))
         ∧ (∀ w : World,
               set (id "../secret") Undefined w = (Throw Collection.undefined_data, w))
         ∧ (∀ (cause : js_error) (w : World),
               set (id "../secret") (Unserializable cause) w
               = (Throw (Collection.not_serializable (id "../secret") cause), w)).
Proof.
  assert (Hrejected : Spec.rejected (id "../secret")) by (right; left; reflexivity).
  split; [exact Hrejected|].
  exact (invalid_identifier_rejected_before_io root users _ Hrejected).
Defined.

(** C6 fails as stated: the document [false] is present under the
    identifier [x] and [get] returns it, but a scan with no query returns
    nothing; and where the file of [x] does not decode, [get] throws while
    the scan returns nothing. *)
Lemma scan_omits_falsy_document :
  (file_at db_with_false (Path "db/users" "x.json") = Some "false"
   ∧ (get (id "x") db_with_false).1 = Ok (JBool false)
   ∧ (all None db_with_false).1 = Ok [])
  ∧ ((get (id "x") db_with_truncated).1
     = Throw (Error "Failed to get document 'x': Unexpected end of JSON input")
     ∧ (all None db_with_truncated).1 = Ok []).
Proof. repeat split; vm_compute; reflexivity. Qed.

(** A collection with the documents [true] and [false] and a text file. *)
Lemma scan_is_get_witness :
  dirs db_with_files !! Collection.collectionPath root users = Some some_files
  ∧ (all None db_with_files).1
    = Ok (flat_map
            (fun fileName =>
               if JsString.endsWith fileName ".json"
               then Spec.got (get (id (identifier fileName)) db_with_files).1
               else [])
            (map_to_list some_files).*1)
  ∧ (all None db_with_files).1 = Ok [JBool true].
Proof.
  assert (Hdir : dirs db_with_files !! Collection.collectionPath root users
                 = Some some_files) by (vm_compute; reflexivity).
  split; [exact Hdir|].
  split; [|vm_compute; reflexivity].
  apply (scan_is_get_on_truthy_documents root users db_with_files some_files
           identifier Hdir).
  intros fileName text Hfile Hjson. unfold some_files in Hfile.
  apply lookup_insert_Some in Hfile as [[<- _]|[_ Hfile]]; [reflexivity|].
  apply lookup_insert_Some in Hfile as [[<- _]|[_ Hfile]]; [reflexivity|].
  apply lookup_singleton_Some in Hfile as [<- _]. discriminate Hjson.
Defined.

(** The empty text: it does not parse and it cannot be repaired. *)
Lemma decode_rethrows_witness :
  JSON_parse EmptyString = Throw (SyntaxError "Unexpected end of JSON input")
  ∧ jsonrepair EmptyString = Throw (Error "Unexpected end of json string at position 0")
  ∧ (Utils.tryRepairAndParseJson EmptyString "db/users/x.json" empty_db).1
    = Throw (SyntaxError "Unexpected end of JSON input").
Proof.
  split; [reflexivity|]. split; [reflexivity|].
  apply (decode_rethrows_original_parse_error EmptyString "db/users/x.json"
           (SyntaxError "Unexpected end of JSON input") empty_db);
    [reflexivity | reflexivity | left; eexists; reflexivity].
Defined.





(** C10 fails as stated: the file [x.json] decodes to [false], yet a scan
    with a query that has no [search] returns no document, as a scan with
    no query does. *)
Lemma query_without_search_omits_falsy_document :
  let query := JObject [("match", JObject [("category", JString "Books")])] in
  JsProp.property query "search" = None
  ∧ file_at db_with_false (Path "db/users" "x.json") = Some "false"
  ∧ Spec.decode "false" = Ok (JBool false)
  ∧ (all (Some query) db_with_false).1 = Ok []
  ∧ (all None db_with_false).1 = Ok [].
Proof. repeat split; vm_compute; reflexivity. Qed.

(** A query whose [match] block is not wrapped in [search], over a truthy
    document, a falsy one and a file that is not a document. *)
Lemma query_without_search_witness :
  let query := JObject [("match", JObject [("category", JString "Books")])] in
  JsProp.property query "search" = None
  ∧ all (Some query) db_with_files = all None db_with_files
  ∧ ∀ files : gmap string string,
      dirs db_with_files !! Collection.collectionPath root users = Some files →
      (all (Some query) db_with_files).1
      = Ok (flat_map (Spec.listed files) (map_to_list files).*1).
Proof.
  intros query. split; [reflexivity|].
  apply (query_without_search_is_ignored root users query db_with_files).
  reflexivity.
Defined.

End Concrete.

(** * Further properties of the code *)

(** ** Identifiers *)

Section Identifiers.
Context `{Platform}.
Variable rootDbPath collectionName : string.

#[local] Abbreviation _getDocPath := (Collection._getDocPath rootDbPath collectionName).
#[local] Abbreviation set := (Collection.set rootDbPath collectionName).
#[local] Abbreviation get := (Collection.get rootDbPath collectionName).
#[local] Abbreviation collectionPath :=
  (Collection.collectionPath rootDbPath collectionName).

Lemma safe_name_clean (id : string) : Behaviour.clean (Spec.safe_name id) = true.
Proof.
  unfold Behaviour.clean.
  induction id as [|c rest IH]; simpl; [done|].
  destruct (Utils.is_separator c) eqn:Hsep; simpl; [done|].
  destruct (Utils.is_reserved c) eqn:Hres; simpl; [done|].
  by rewrite Hsep, Hres.
Qed.

Lemma safe_name_length (id : string) :
  (String.length (Spec.safe_name id) ≤ String.length id)%nat.
Proof.
  induction id as [|c rest IH]; simpl; [done|].
  destruct (Utils.is_separator c); simpl; [lia|].
  destruct (Utils.is_reserved c); simpl; lia.
Qed.

Lemma safe_name_of_clean (id : string) :
  Behaviour.clean id = true → Spec.safe_name id = id.
Proof.
  unfold Behaviour.clean.
  induction id as [|c rest IH]; simpl; [done|].
  intros [Hc Hrest]%andb_prop.
  apply negb_true_iff, orb_false_iff in Hc as [-> ->]. by rewrite IH.
Qed.

(** X1. Whatever the identifier, its sanitised form holds no separator and
    no reserved character, and is not longer than the identifier. *)
Theorem sanitize_leaves_no_unsafe_character (id : string) :
  Behaviour.clean (Utils.sanitize id) = true
  ∧ (String.length (Utils.sanitize id) ≤ String.length id)%nat.
Proof.
  rewrite sanitize_safe_name. split; [apply safe_name_clean | apply safe_name_length].
Qed.

(** X2. Sanitising twice is sanitising once. *)
Theorem sanitize_is_idempotent (id : string) :
  Utils.sanitize (Utils.sanitize id) = Utils.sanitize id.
Proof.
  rewrite !sanitize_safe_name. apply safe_name_of_clean, safe_name_clean.
Qed.

(** X3. An identifier that has no separator and no reserved character, is
    not blank, has no [..] and at most 200 characters is stored in the file
    named by the identifier itself followed by [.json]. *)
Theorem clean_identifier_names_its_file (id : string) :
  Behaviour.clean id = true →
  JsString.trim_is_empty id = false →
  JsString.includes id ".." = false →
  (String.length id ≤ 200)%nat →
  _getDocPath (Some (JString id)) = Ok (Path collectionPath (id +:+ ".json")).
Proof.
  intros Hclean Hblank Hdots Hlen. unfold Collection._getDocPath.
  rewrite sanitize_safe_name, (safe_name_of_clean id Hclean), Hblank, Hdots.
  by apply Nat.ltb_ge in Hlen as ->.
Qed.

Lemma append_length (s t : string) :
  String.length (s +:+ t) = (String.length s + String.length t)%nat.
Proof.
  induction s as [|c s IH]; [done|].
  change (String c s +:+ t) with (String c (s +:+ t)). simpl. by rewrite IH.
Qed.

Lemma append_cancel_r (s1 s2 t : string) : s1 +:+ t = s2 +:+ t → s1 = s2.
Proof.
  revert s2. induction s1 as [|c s1 IH]; intros [|c2 s2] Heq.
  - done.
  - apply (f_equal String.length) in Heq.
    rewrite !append_length in Heq. simpl in Heq. lia.
  - apply (f_equal String.length) in Heq.
    rewrite !append_length in Heq. simpl in Heq. lia.
  - change (String c (s1 +:+ t) = String c2 (s2 +:+ t)) in Heq.
    injection Heq as -> Heq. f_equal. by apply IH.
Qed.

Lemma getDocPath_inv (docId : option value) (p : path) :
  _getDocPath docId = Ok p →
  ∃ id, docId = Some (JString id)
        ∧ p = Path collectionPath (Utils.sanitize id +:+ ".json").
Proof.
  unfold Collection._getDocPath.
  destruct docId as [[ | | | id | | ]|]; try done.
  destruct (JsString.trim_is_empty id); [done|].
  destruct (JsString.includes (Utils.sanitize id) ".."); [done|].
  destruct (200 <? String.length (Utils.sanitize id))%nat; [done|].
  intros [= <-]. by exists id.
Qed.

Lemma set_stores (docId : option value) (data : value) (w w' : World)
    (r : Collection.set_result) (p : path) :
  set docId (Data data) w = (Ok r, w') →
  _getDocPath docId = Ok p →
  file_at w' p = Some (JSON_stringify data).
Proof.
  intros (p' & Hp' & Hfile & _)%set_inv Hp.
  rewrite Hp in Hp'. by injection Hp' as <-.
Qed.

Lemma get_of_file (docId : option value) (p : path) (w : World) (v : value) :
  _getDocPath docId = Ok p →
  file_at w p = Some (JSON_stringify v) →
  JSON_parse (JSON_stringify v) = Ok v →
  (get docId w).1 = Ok v.
Proof.
  intros Hp Hfile Hparse.
  destruct (get_run rootDbPath collectionName docId p w Hp) as (w' & -> & _).
  simpl. rewrite Hfile. unfold Spec.read_outcome, Spec.decode. by rewrite Hparse.
Qed.

(** X4. Two accepted identifiers name the same document file exactly when
    their sanitised forms are equal; and then what [set] stores under one,
    [get] reads under the other (for a value that [JSON.parse] reads back
    from its serialisation). *)
Theorem identifiers_with_one_sanitised_form_share_a_document
    (id1 id2 : string) (p1 p2 : path) :
  _getDocPath (Some (JString id1)) = Ok p1 →
  _getDocPath (Some (JString id2)) = Ok p2 →
  (p1 = p2 ↔ Utils.sanitize id1 = Utils.sanitize id2)
  ∧ (Utils.sanitize id1 = Utils.sanitize id2 →
     ∀ (v : value) (w w1 : World) (r : Collection.set_result),
       JSON_parse (JSON_stringify v) = Ok v →
       set (Some (JString id1)) (Data v) w = (Ok r, w1) →
       (get (Some (JString id2)) w1).1 = Ok v).
Proof.
  intros Hp1 Hp2.
  pose proof Hp1 as (i1 & [= <-] & ->)%getDocPath_inv.
  pose proof Hp2 as (i2 & [= <-] & ->)%getDocPath_inv.
  split.
  - split; [|by intros ->].
    intros [= Heq]. by apply append_cancel_r in Heq.
  - intros Hsame v w w1 r Hparse Hset.
    apply (get_of_file _ (Path collectionPath (Utils.sanitize id2 +:+ ".json")));
      [done| |done].
    rewrite <- Hsame. by eapply set_stores.
Qed.

(** X5. [set] then [get]: for a value that [JSON.parse] reads back from
    its serialisation, [get] resolves with the value a successful [set]
    stored under the same identifier, whatever the file held before. *)
Theorem get_after_set_returns_the_value
    (docId : option value) (v : value) (w w1 : World) (r : Collection.set_result) :
  JSON_parse (JSON_stringify v) = Ok v →
  set docId (Data v) w = (Ok r, w1) →
  (get docId w1).1 = Ok v.
Proof.
  intros Hparse Hset.
  pose proof Hset as (p & Hp & Hfile & _)%set_inv.
  by apply (get_of_file _ p).
Qed.

End Identifiers.

(** ** Documents next to each other *)

Section Documents.
Context `{Platform}.
Variable rootDbPath collectionName : string.

#[local] Abbreviation _getDocPath := (Collection._getDocPath rootDbPath collectionName).
#[local] Abbreviation set := (Collection.set rootDbPath collectionName).
#[local] Abbreviation get := (Collection.get rootDbPath collectionName).
#[local] Abbreviation del := (Collection.del rootDbPath collectionName).
#[local] Abbreviation all := (Collection.all rootDbPath collectionName).
#[local] Abbreviation scan := (Collection.scan rootDbPath collectionName).
#[local] Abbreviation collectionPath :=
  (Collection.collectionPath rootDbPath collectionName).
#[local] Abbreviation backupDirPath :=
  (path_join [rootDbPath; ".backup"; collectionName]).

Lemma writeFile_other (p p' : path) (data : js_text) (w w' : World) :
  fsp.writeFile p data w = (Ok tt, w') →
  p' ≠ p →
  file_at w' p' = file_at w p'.
Proof.
  intros (text & files & _ & Hdir & Hdirs & _)%writeFile_ok Hne.
  unfold file_at. rewrite Hdirs.
  destruct (decide (dirname p' = dirname p)) as [Heq|Hdiff].
  - rewrite Heq, lookup_insert_eq, Hdir. simpl.
    rewrite lookup_insert_ne; [done|].
    intros Hbase. apply Hne. destruct p, p'. simpl in *. by subst.
  - by rewrite lookup_insert_ne.
Qed.

Lemma set_ok_inv (docId : option value) (v : value) (w w' : World)
    (r : Collection.set_result) :
  set docId (Data v) w = (Ok r, w') →
  ∃ p, _getDocPath docId = Ok p
       ∧ fsp.writeFile p (JSON_stringify v) w = (Ok tt, w')
       ∧ r = Collection.SetResult true docId (basename p).
Proof.
  rewrite (set_run _ _ _ _ (text_of (JSON_stringify v))) by done.
  destruct (_getDocPath docId) as [p|e]; [|done].
  destruct (fsp.writeFile p (JSON_stringify v) w) as [[[]|e] w1] eqn:Hwrite.
  - intros [= <- <-]. by exists p.
  - by destruct (Utils.backupDocument _ _ _ _ _) as [[?|?] ?].
Qed.

Lemma getDocPath_dirname (docId : option value) (p : path) :
  _getDocPath docId = Ok p → dirname p = collectionPath.
Proof. by intros (id & _ & ->)%getDocPath_inv. Qed.

(** X6. [set] does not make the collection directory: it resolves only
    when the directory is there.  The directory then holds the file of the
    identifier with the serialised value, its other files are those it
    held, and the result names the identifier and the file. *)
Theorem set_resolves_only_in_an_existing_directory
    (docId : option value) (v : value) (r : Collection.set_result)
    (w w' : World) :
  set docId (Data v) w = (Ok r, w') →
  ∃ p files,
    _getDocPath docId = Ok p
    ∧ dirs w !! collectionPath = Some files
    ∧ dirs w' = <[collectionPath := <[basename p := JSON_stringify v]> files]> (dirs w)
    ∧ r = Collection.SetResult true docId (basename p).
Proof.
  intros (p & Hp & Hwrite & ->)%set_ok_inv.
  apply writeFile_ok in Hwrite as (text & files & [= <-] & Hdir & Hdirs & _).
  rewrite (getDocPath_dirname _ _ Hp) in Hdir, Hdirs. by exists p, files.
Qed.

(** X7. A successful [set] changes one file: every other file of the file
    system holds what it held, and [get] of any identifier that names
    another file resolves or throws as it did before. *)
Theorem set_leaves_other_documents
    (docId : option value) (v : value) (p : path) (w w' : World)
    (r : Collection.set_result) :
  set docId (Data v) w = (Ok r, w') →
  _getDocPath docId = Ok p →
  (∀ p', p' ≠ p → file_at w' p' = file_at w p')
  ∧ ∀ docId' p', _getDocPath docId' = Ok p' → p' ≠ p →
                 (get docId' w').1 = (get docId' w).1.
Proof.
  intros (p0 & Hp0 & Hwrite & _)%set_ok_inv Hp.
  rewrite Hp in Hp0. injection Hp0 as <-.
  assert (Hother : ∀ p', p' ≠ p → file_at w' p' = file_at w p')
    by (intros p' Hne; by apply (writeFile_other p p' _ _ _ Hwrite)).
  split; [done|]. intros docId' p' Hp' Hne.
  destruct (get_run rootDbPath collectionName docId' p' w' Hp') as (? & -> & _).
  destruct (get_run rootDbPath collectionName docId' p' w Hp') as (? & -> & _).
  simpl. by rewrite Hother.
Qed.

Lemma unlink_inv (p : path) (w w' : World) :
  fsp.unlink p w = (Ok tt, w') →
  ∃ files, dirs w !! dirname p = Some files
           ∧ dirs w' = <[dirname p := delete (basename p) files]> (dirs w).
Proof.
  unfold fsp.unlink. simpl. intros Hunlink.
  repeat (case_match || case_bool_decide); simplify_eq. by eexists.
Qed.

Lemma unlink_present (p : path) (text : string) (w : World) :
  file_at w p = Some text →
  fsp.unlink p w
  = if bool_decide (dirname p ∈ denied w)
    then (Throw (fsp.EACCES "unlink" (path_text p)), traced (Unlink p) w)
    else (Ok tt,
          with_dirs (<[dirname p := delete (basename p)
                                      (default ∅ (dirs w !! dirname p))]> (dirs w))
            (traced (Unlink p) w)).
Proof.
  unfold fsp.unlink, file_at. simpl.
  destruct (dirs w !! dirname p) as [files|]; simpl; [|done].
  by intros ->.
Qed.

Lemma file_at_after_delete (p : path) (w w' : World) (files : gmap string string) :
  dirs w !! dirname p = Some files →
  dirs w' = <[dirname p := delete (basename p) files]> (dirs w) →
  file_at w' p = None ∧ ∀ p', p' ≠ p → file_at w' p' = file_at w p'.
Proof.
  intros Hfiles Hdirs. unfold file_at. rewrite Hdirs. split.
  - rewrite lookup_insert_eq. simpl. apply lookup_delete_eq.
  - intros p' Hne. destruct (decide (dirname p' = dirname p)) as [Heq|Hdiff].
    + rewrite Heq, lookup_insert_eq, Hfiles. simpl.
      rewrite lookup_delete_ne; [done|].
      intros Hbase. apply Hne. destruct p, p'. simpl in *. by subst.
    + by rewrite lookup_insert_ne.
Qed.

(** X8. [del] of a stored document, in a directory the system lets be
    changed, resolves with [{ success: true, id }]; afterwards the file is
    gone, [get] of the identifier resolves with [null], and every other
    file holds what it held. *)
Theorem del_removes_exactly_the_document
    (docId : option value) (p : path) (text : string) (w : World) :
  _getDocPath docId = Ok p →
  file_at w p = Some text →
  dirname p ∉ denied w →
  ∃ w', del docId w = (Ok (Collection.DelResult true docId None), w')
        ∧ file_at w' p = None
        ∧ (get docId w').1 = Ok JNull
        ∧ ∀ p', p' ≠ p → file_at w' p' = file_at w p'.
Proof.
  intros Hp Hfile Hfree.
  destruct (fsp.unlink p w) as [[[]|e] w'] eqn:Hunlink.
  - exists w'. pose proof Hunlink as (files & Hfiles & Hdirs)%unlink_inv.
    destruct (file_at_after_delete p w w' files Hfiles Hdirs) as [Habsent Hother].
    split; [|split; [done|split; [|done]]].
    + unfold Collection.del. unfold_m. by rewrite Hp, Hunlink.
    + destruct (get_run rootDbPath collectionName docId p w' Hp) as (? & -> & _).
      simpl. by rewrite Habsent.
  - rewrite (unlink_present p text) in Hunlink by done.
    by rewrite bool_decide_eq_false_2 in Hunlink.
Qed.

(** X9. [del] of a stored document in a directory the system refuses to
    change throws [Failed to delete document ...] with the system's
    message, and the document stays as it was. *)
Theorem del_in_denied_directory_throws
    (id : string) (p : path) (text : string) (w : World) :
  _getDocPath (Some (JString id)) = Ok p →
  file_at w p = Some text →
  dirname p ∈ denied w →
  ∃ w', del (Some (JString id)) w
        = (Throw (Error ("Failed to delete document '" +:+ id +:+ "': "
                         +:+ message (fsp.EACCES "unlink" (path_text p)))), w')
        ∧ file_at w' p = Some text.
Proof.
  intros Hp Hfile Hdenied. unfold Collection.del. unfold_m.
  rewrite Hp, (unlink_present p text) by done.
  rewrite bool_decide_eq_true_2 by done. simpl. by eexists.
Qed.

End Documents.

(** ** Directories, backups and reads *)

Section Recovery.
Context `{Platform}.
Variable rootDbPath collectionName : string.

#[local] Abbreviation _getDocPath := (Collection._getDocPath rootDbPath collectionName).
#[local] Abbreviation set := (Collection.set rootDbPath collectionName).
#[local] Abbreviation get := (Collection.get rootDbPath collectionName).
#[local] Abbreviation all := (Collection.all rootDbPath collectionName).
#[local] Abbreviation scan := (Collection.scan rootDbPath collectionName).
#[local] Abbreviation collectionPath :=
  (Collection.collectionPath rootDbPath collectionName).
#[local] Abbreviation backupDirPath :=
  (path_join [rootDbPath; ".backup"; collectionName]).





End Recovery.

(** ** Reads and scans *)

Ltac frames := eauto using frame_refl, frame_trans, frame_traced, frame_logged.

Section Scans.
Context `{Platform}.
Variable rootDbPath collectionName : string.

#[local] Abbreviation _getDocPath := (Collection._getDocPath rootDbPath collectionName).
#[local] Abbreviation get := (Collection.get rootDbPath collectionName).
#[local] Abbreviation all := (Collection.all rootDbPath collectionName).
#[local] Abbreviation scan := (Collection.scan rootDbPath collectionName).
#[local] Abbreviation collectionPath :=
  (Collection.collectionPath rootDbPath collectionName).
(** X13. [get] reads only: whatever it settles with, every directory and
    file, the permissions and the clock are as they were. *)
Theorem get_changes_no_file (docId : option value) (w : World) :
  frame w (get docId w).2.
Proof.
  destruct (_getDocPath docId) as [p|e] eqn:Hp.
  - by destruct (get_run rootDbPath collectionName docId p w Hp) as (w' & -> & Hframe).
  - unfold Collection.get. unfold_m. by rewrite Hp.
Qed.

Lemma scan_frame (query : option value) (names : list string) :
  ∀ (results : list value) (w : World), frame w (scan query names results w).2.
Proof.
  induction names as [|fileName rest IH]; intros results w; simpl; [done|].
  destruct (JsString.endsWith fileName ".json"); simpl; [|by apply IH].
  unfold_m. rewrite readFile_run.
  set (w1 := traced (ReadFile (Path collectionPath fileName)) w).
  assert (Hframe1 : frame w w1) by done.
  destruct (file_at w _) as [text|]; simpl.
  - destruct (tryRepairAndParseJson_run text
                (path_text (Path collectionPath fileName)) w1)
      as (w2 & -> & Hframe2).
    assert (Hframe : frame w w2) by frames.
    destruct (Spec.decode text) as [v|e]; simpl.
    + destruct (Js.truthy v); simpl.
      * destruct (Collection.search_of query) as [search|].
        -- destruct (Collection.matchesQuery search v) as [[]|e]; simpl;
             [eapply frame_trans; [exact Hframe|apply IH]..|done].
        -- eapply frame_trans; [exact Hframe|apply IH].
      * eapply frame_trans; [exact Hframe|apply IH].
    + eapply frame_trans; [|apply IH]. frames.
  - eapply frame_trans; [|apply IH]. frames.
Qed.

Lemma readdir_frame (dir : string) (w w' : World) (r : result (list string)) :
  fsp.readdir dir w = (r, w') → frame w w'.
Proof.
  unfold fsp.readdir. simpl.
  destruct (dirs w !! dir); by intros [= _ <-].
Qed.

Lemma all_dirs (query : option value) (w : World) :
  ∃ w1 r, Utils.ensureDirExists collectionPath w = (r, w1)
          ∧ dirs (all query w).2 = dirs w1.
Proof.
  unfold Collection.all. unfold_m.
  destruct (Utils.ensureDirExists collectionPath w) as [[[]|e] w1] eqn:Hdir;
    exists w1; eexists; (split; [done|]).
  - destruct (fsp.readdir collectionPath w1) as [[names|e] w2] eqn:Hread;
      apply readdir_frame in Hread as (Hdirs2 & _).
    + destruct (scan_frame query names [] w2) as (Hdirs3 & _). congruence.
    + by destruct (is_ENOENT e).
  - by destruct (is_ENOENT e).
Qed.

(** X14. [all] changes no file, whatever it settles with: every directory
    that existed holds the files it held, and a directory that is new
    (the collection's own, or one above it) is empty. *)
Theorem all_changes_no_file (query : option value) (w : World) :
  (∀ d files, dirs w !! d = Some files → dirs (all query w).2 !! d = Some files)
  ∧ (∀ d files, dirs (all query w).2 !! d = Some files →
                dirs w !! d = Some files ∨ files = ∅).
Proof.
  destruct (all_dirs query w) as (w1 & r & Hdir & ->).
  apply ensureDirExists_run in Hdir as [(_ & _ & _ & Hkeep & Hnew) _]. done.
Qed.


(** With a [search] block, the loop of [all] is the filter run over what
    [Spec.scanned] describes, file by file. *)
Lemma scan_filtered (query : option value) (search : value)
    (files : gmap string string) (names : list string) :
  Collection.search_of query = Some search →
  ∀ (results : list value) (w : World),
    dirs w !! collectionPath = Some files →
    ∃ w', scan query names results w
          = (Behaviour.select search (flat_map (Spec.scanned files) names) results, w')
          ∧ frame w w'.
Proof.
  intros Hsearch.
  induction names as [|fileName rest IH]; intros results w Hdir; simpl.
  { by exists w. }
  unfold Spec.scanned at 1.
  destruct (JsString.endsWith fileName ".json"); simpl; [|by apply IH].
  unfold_m. rewrite readFile_run.
  unfold file_at. simpl. rewrite Hdir. simpl.
  set (w1 := traced (ReadFile (Path collectionPath fileName)) w).
  assert (Hdir1 : dirs w1 !! collectionPath = Some files) by done.
  destruct (files !! fileName) as [text|]; simpl.
  - destruct (tryRepairAndParseJson_run text
                (path_text (Path collectionPath fileName)) w1)
      as (w2 & -> & Hframe2).
    assert (Hdir2 : dirs w2 !! collectionPath = Some files)
      by (by rewrite (frame_dir w1 w2)).
    destruct (Spec.decode text) as [v|e]; simpl.
    + destruct (Js.truthy v); simpl.
      * rewrite Hsearch.
        destruct (Collection.matchesQuery search v) as [[]|e]; simpl.
        -- destruct (IH (results ++ [v])%list w2 Hdir2) as (w' & -> & Hframe).
           exists w'. split; [done|]. frames.
        -- destruct (IH results w2 Hdir2) as (w' & -> & Hframe).
           exists w'. split; [done|]. frames.
        -- exists w2. split; [done|]. frames.
      * destruct (IH results w2 Hdir2) as (w' & -> & Hframe).
        exists w'. split; [done|]. frames.
    + match goal with
      | |- context [scan query rest results (logged ?l ?msg w2)] =>
          destruct (IH results (logged l msg w2)) as (w' & -> & Hframe);
            [done|]
      end.
      exists w'. split; [done|].
      frames.
  - match goal with
    | |- context [scan query rest results (logged ?l ?msg w1)] =>
        destruct (IH results (logged l msg w1)) as (w' & -> & Hframe);
          [done|]
    end.
    exists w'. split; [done|].
    frames.
Qed.

Lemma all_filtered (query : option value) (search : value)
    (files : gmap string string) (w : World) :
  Collection.search_of query = Some search →
  dirs w !! collectionPath = Some files →
  (all query w).1
  = Behaviour.select search (flat_map (Spec.scanned files) (map_to_list files).*1) [].
Proof.
  intros Hsearch Hdir. unfold Collection.all. unfold_m.
  rewrite (ensureDirExists_existing _ files) by done.
  unfold fsp.readdir. simpl. rewrite Hdir.
  match goal with
  | |- context [scan query ?names [] ?w1] =>
      destruct (scan_filtered query search files names Hsearch [] w1) as (w' & -> & _);
        [done|]
  end.
  done.
Qed.

Lemma select_sublist (search : value) (docs : list value) :
  ∀ results out,
    Behaviour.select search docs results = Ok out →
    ∃ kept, out = (results ++ kept)%list ∧ sublist kept docs.
Proof.
  induction docs as [|doc rest IH]; intros results out; simpl.
  - intros [= <-]. exists []. by rewrite app_nil_r.
  - destruct (Collection.matchesQuery search doc) as [[]|e]; [| |done].
    + intros (kept & -> & Hsub)%IH. exists (doc :: kept).
      rewrite <- app_assoc. split; [done|]. by apply sublist_skip.
    + intros (kept & -> & Hsub)%IH. exists kept.
      split; [done|]. by apply sublist_cons.
Qed.

(** X16. Over an existing collection directory, a scan with a [search]
    block is the filter run, in directory order, over the documents the
    scan without a query returns: a document is kept when the filter
    returns [true] on it, and the first document on which the filter
    throws makes the scan throw the same. *)
Theorem filtered_scan_is_the_filter_over_the_unfiltered_scan
    (query : option value) (search : value) (files : gmap string string)
    (w : World) (every : list value) :
  Collection.search_of query = Some search →
  dirs w !! collectionPath = Some files →
  (all None w).1 = Ok every →
  (all query w).1 = Behaviour.select search every [].
Proof.
  intros Hsearch Hdir.
  rewrite (all_unfiltered rootDbPath collectionName None files) by done.
  intros [= <-]. by apply all_filtered.
Qed.

(** X17. A query only leaves documents out: over an existing collection
    directory, what [all] resolves with under any query is a subsequence,
    in the same order, of what it resolves with under none. *)
Theorem query_only_leaves_documents_out
    (query : option value) (files : gmap string string) (w : World)
    (kept : list value) :
  dirs w !! collectionPath = Some files →
  (all query w).1 = Ok kept →
  ∃ every, (all None w).1 = Ok every ∧ sublist kept every.
Proof.
  intros Hdir Hkept.
  rewrite (all_unfiltered rootDbPath collectionName None files) by done.
  eexists. split; [done|].
  destruct (Collection.search_of query) as [search|] eqn:Hsearch.
  - rewrite (all_filtered query search files) in Hkept by done.
    by apply select_sublist in Hkept as (kept' & -> & Hsub).
  - rewrite (all_unfiltered rootDbPath collectionName query files) in Hkept by done.
    by injection Hkept as <-.
Qed.

End Scans.

(** ** The filter *)

Section Filter.
Context `{Platform}.
Variable rootDbPath collectionName : string.

#[local] Abbreviation all := (Collection.all rootDbPath collectionName).
#[local] Abbreviation collectionPath :=
  (Collection.collectionPath rootDbPath collectionName).

Lemma check_block_fields (check : value → value → result bool)
    (docContent : value) (block : option value) :
  Collection.check_block check docContent block
  = Collection.check_fields check docContent (Behaviour.block_fields block).
Proof.
  unfold Collection.check_block, Behaviour.block_fields.
  destruct block as [b|]; [|done]. by destruct (Js.truthy b).
Qed.

(** On an object that does not hide [hasOwnProperty], a block is checked
    field by field, and holds when every field does. *)
Lemma check_fields_hold (check : value → value → result bool)
    (holds : value → value → Prop) (dprops : list (string * value)) :
  Js.own_property dprops "hasOwnProperty" = None →
  (∀ key d q, Js.own_property dprops key = Some d →
              ∃ b, check d q = Ok b ∧ (b = true ↔ holds d q)) →
  ∀ fields,
    ∃ b, Collection.check_fields check (JObject dprops) fields = Ok b
         ∧ (b = true ↔ Behaviour.fields_hold holds dprops fields).
Proof.
  intros Hfree Hcheck. unfold Behaviour.fields_hold.
  induction fields as [|[key q] rest IH]; simpl.
  { exists true. split; [done|]. split; [|done]. intros _ key q Hin.
    by apply elem_of_nil in Hin. }
  rewrite (hasOwnProperty_shadow_free _ _ _ Hfree).
  destruct (Js.own_property dprops key) as [d|] eqn:Hkey; simpl.
  - destruct (Hcheck key d q Hkey) as (b & -> & Hb).
    destruct b.
    + destruct IH as (b' & -> & Hb'). exists b'. split; [done|].
      rewrite Hb'. split.
      * intros Hrest k q' [[= -> ->]|Hin]%elem_of_cons; [|by apply Hrest].
        exists d. split; [done|]. by apply Hb.
      * intros Hall k q' Hin. apply Hall. by right.
    + exists false. split; [done|]. split; [done|].
      intros Hall. destruct (Hall key q) as (d' & Hd' & Hholds); [by left|].
      rewrite Hkey in Hd'. injection Hd' as <-. by apply Hb in Hholds.
  - exists false. split; [done|]. split; [done|].
    intros Hall. destruct (Hall key q) as (d' & Hd' & _); [by left|].
    by rewrite Hkey in Hd'.
Qed.

(** X18. On an object document that hides [hasOwnProperty] nowhere, the
    filter of [all] returns, and returns [true] exactly when every field
    of the [match] block is a field of the document whose value matches,
    and every field of the [like] block is a field of the document whose
    value is alike.  A block that is absent or falsy asks for nothing. *)
Theorem filter_is_the_conjunction_of_its_blocks
    (search : value) (dprops : list (string * value)) :
  Spec.shadow_free (JObject dprops) = true →
  ∃ b, Collection.matchesQuery search (JObject dprops) = Ok b
       ∧ (b = true ↔
          Behaviour.fields_hold Spec.Matches dprops
            (Behaviour.block_fields (JsProp.property search "match"))
          ∧ Behaviour.fields_hold Spec.Likes dprops
              (Behaviour.block_fields (JsProp.property search "like"))).
Proof.
  simpl. intros [Hfree Hfields]%andb_prop.
  apply negb_true_iff, bool_decide_eq_false in Hfree.
  assert (Hnone : Js.own_property dprops "hasOwnProperty" = None).
  { destruct (Js.own_property dprops "hasOwnProperty"); [|done].
    exfalso. apply Hfree. eauto. }
  unfold Collection.matchesQuery. rewrite !check_block_fields.
  destruct (check_fields_hold Collection._checkMatch Spec.Matches dprops Hnone)
    with (fields := Behaviour.block_fields (JsProp.property search "match"))
    as (b1 & -> & Hb1).
  { intros key d q Hd. apply checkMatch_Matches.
    by apply (own_property_shadow_free dprops key). }
  destruct (check_fields_hold Collection._checkLike Spec.Likes dprops Hnone)
    with (fields := Behaviour.block_fields (JsProp.property search "like"))
    as (b2 & Hlike & Hb2).
  { intros key d q Hd. apply checkLike_Likes.
    by apply (own_property_shadow_free dprops key). }
  destruct b1.
  - rewrite Hlike. exists b2. split; [done|]. rewrite Hb2.
    split; [|by intros [_ ?]]. intros Hlikes. split; [by apply Hb1|done].
  - exists false. split; [done|]. split; [done|].
    intros [Hmatches _]. by apply Hb1 in Hmatches.
Qed.

(** What calling a hidden [hasOwnProperty] on the document throws. *)
#[local] Abbreviation not_a_function :=
  (TypeError "docContent.hasOwnProperty is not a function").

Lemma check_fields_hidden (check : value → value → result bool)
    (dprops : list (string * value)) (x : value) (fields : list (string * value)) :
  Js.own_property dprops "hasOwnProperty" = Some x →
  fields ≠ [] →
  Collection.check_fields check (JObject dprops) fields = Throw not_a_function.
Proof.
  intros Hhidden Hfields. destruct fields as [|[key q] rest]; [done|].
  simpl. unfold Js.hasOwnProperty. by rewrite Hhidden.
Qed.

(** X19. A document that is an object with a field named
    [hasOwnProperty] cannot be filtered: whenever the [match] or the
    [like] block has a field to check, whatever the field, the filter
    throws a [TypeError] instead of returning. *)
Theorem filter_throws_on_a_document_with_a_hasOwnProperty_field
    (search : value) (dprops : list (string * value)) (x : value) :
  Js.own_property dprops "hasOwnProperty" = Some x →
  Behaviour.block_fields (JsProp.property search "match") ≠ []
  ∨ Behaviour.block_fields (JsProp.property search "like") ≠ [] →
  Collection.matchesQuery search (JObject dprops) = Throw not_a_function.
Proof.
  intros Hhidden Hfields.
  unfold Collection.matchesQuery. rewrite !check_block_fields.
  destruct (Behaviour.block_fields (JsProp.property search "match"))
    as [|field rest] eqn:Hmatch.
  - destruct Hfields as [|Hlike]; [done|]. simpl.
    by apply (check_fields_hidden _ _ x).
  - by rewrite (check_fields_hidden _ _ x).
Qed.

Lemma select_throws (search : value) (doc : value) (e0 : js_error)
    (docs : list value) :
  doc ∈ docs →
  Collection.matchesQuery search doc = Throw e0 →
  ∀ results, ∃ e, Behaviour.select search docs results = Throw e.
Proof.
  intros Hin Hthrow.
  induction docs as [|d rest IH]; intros results; [by apply elem_of_nil in Hin|].
  simpl. apply elem_of_cons in Hin as [<-|Hin].
  - rewrite Hthrow. by eexists.
  - destruct (Collection.matchesQuery search d) as [[]|e]; [by apply IH..|by eexists].
Qed.

Lemma scanned_document (files : gmap string string) (fileName text : string)
    (v : value) :
  files !! fileName = Some text →
  JsString.endsWith fileName ".json" = true →
  Spec.decode text = Ok v →
  Js.truthy v = true →
  v ∈ flat_map (Spec.scanned files) (map_to_list files).*1.
Proof.
  intros Hfile Hjson Hdecode Htruthy.
  apply list_elem_of_In, in_flat_map. exists fileName. split.
  - apply list_elem_of_In, list_elem_of_fmap. exists (fileName, text).
    split; [done|]. by apply elem_of_map_to_list.
  - unfold Spec.scanned. rewrite Hjson, Hfile, Hdecode, Htruthy. by left.
Qed.

(** X20. One such document stops every filtering scan of its collection:
    when a [.json] file of the collection decodes to an object with a field
    named [hasOwnProperty], [all] throws under every query whose [match]
    or [like] block has a field to check, whatever the other documents
    are. *)
Theorem one_document_fails_every_filtering_scan
    (query : option value) (search : value) (files : gmap string string)
    (fileName text : string) (dprops : list (string * value)) (x : value)
    (w : World) :
  dirs w !! collectionPath = Some files →
  files !! fileName = Some text →
  JsString.endsWith fileName ".json" = true →
  Spec.decode text = Ok (JObject dprops) →
  Js.own_property dprops "hasOwnProperty" = Some x →
  Collection.search_of query = Some search →
  Behaviour.block_fields (JsProp.property search "match") ≠ []
  ∨ Behaviour.block_fields (JsProp.property search "like") ≠ [] →
  ∃ e, (all query w).1 = Throw e.
Proof.
  intros Hdir Hfile Hjson Hdecode Hhidden Hsearch Hfields.
  rewrite (all_filtered rootDbPath collectionName query search files) by done.
  apply (select_throws search (JObject dprops) not_a_function).
  - by apply (scanned_document files fileName text).
  - unfold Collection.matchesQuery. rewrite !check_block_fields.
    destruct (Behaviour.block_fields (JsProp.property search "match")) eqn:Hmatch.
    + destruct Hfields as [|Hlike]; [done|]. simpl.
      by apply (check_fields_hidden _ _ x).
    + by rewrite (check_fields_hidden _ _ x).
Qed.

End Filter.

(** ** Repairs and backups *)

Section Repairs.
Context `{Platform}.
Variable rootDbPath collectionName : string.

#[local] Abbreviation _getDocPath := (Collection._getDocPath rootDbPath collectionName).
#[local] Abbreviation get := (Collection.get rootDbPath collectionName).
#[local] Abbreviation backupDocument :=
  (Utils.backupDocument rootDbPath collectionName).
#[local] Abbreviation backupDirPath :=
  (path_join [rootDbPath; ".backup"; collectionName]).

(** X21. [get] repairs in memory only.  When the text of a document does
    not parse, [jsonrepair] repairs it and the repaired text parses, [get]
    resolves with the repaired value and logs the two warnings; the file
    keeps the text that does not parse. *)
Theorem get_repairs_in_memory_only
    (docId : option value) (p : path) (text repaired : string)
    (parseError : js_error) (v : value) (w : World) :
  _getDocPath docId = Ok p →
  file_at w p = Some text →
  JSON_parse text = Throw parseError →
  is_SyntaxError parseError = true →
  jsonrepair text = Ok repaired →
  JSON_parse repaired = Ok v →
  (get docId w).1 = Ok v
  ∧ file_at (get docId w).2 p = Some text
  ∧ console (get docId w).2
    = (console w
       ++ [(Warn, "Corrupted JSON content detected in " +:+ path_text p
                  +:+ ". Attempting repair.");
           (Warn, "JSON content in " +:+ path_text p
                  +:+ " successfully repaired.")])%list.
Proof.
  intros Hp Hfile Hparse Hsyntax Hrepair Hrepaired.
  unfold Collection.get, Utils.tryRepairAndParseJson. unfold_m.
  rewrite Hp, readFile_run, Hfile. simpl.
  rewrite Hparse, Hsyntax, Hrepair. simpl. rewrite Hrepaired. simpl.
  split; [done|]. split; [done|]. by rewrite <- app_assoc.
Qed.

(** X22. A text that parses, or that [JSON.parse] rejects with anything
    but a [SyntaxError], is decoded without a repair attempt and without a
    line on the console. *)
Theorem decoding_is_silent_without_a_syntax_error
    (text label : string) (w : World) :
  (∀ e, JSON_parse text = Throw e → is_SyntaxError e = false) →
  Utils.tryRepairAndParseJson text label w = (JSON_parse text, w).
Proof.
  intros Hother. unfold Utils.tryRepairAndParseJson. unfold_m.
  destruct (JSON_parse text) as [v|e]; [done|].
  by rewrite (Hother e).
Qed.

Lemma ensureDirExists_file_at (dirPath : string) (w w' : World) (r : result unit)
    (p : path) :
  Utils.ensureDirExists dirPath w = (r, w') → file_at w' p = file_at w p.
Proof. intros [Hgrown _]%ensureDirExists_run. by apply grown_file_at. Qed.

Lemma backupDocument_other (docId text : string) (w w' : World) (p p' : path) :
  backupDocument docId text w = (Ok p, w') →
  p' ≠ p → file_at w' p' = file_at w p'.
Proof.
  unfold Utils.backupDocument. unfold_m.
  destruct (Utils.ensureDirExists backupDirPath w) as [[[]|e] w1] eqn:Hdir;
    [|done].
  apply (ensureDirExists_file_at _ _ _ _ p') in Hdir.
  destruct (fsp.writeFile _ text w1) as [[[]|e] w2] eqn:Hwrite; [|done].
  intros [= <- <-] Hne. simpl.
  change (file_at (logged Warn ?msg w2) p') with (file_at w2 p').
  by rewrite (writeFile_other _ p' _ _ _ Hwrite), Hdir.
Qed.

(** X23. Backups of one document are told apart by the clock alone: two
    successful backups go to the same file exactly when they are taken in
    the same millisecond, the later one then replacing the earlier; taken
    at different times, the later one leaves the earlier one's file as it
    was. *)
Theorem backups_are_told_apart_by_the_clock
    (docId text1 text2 : string) (w1 w1' w2 w2' : World) (p1 p2 : path) :
  backupDocument docId text1 w1 = (Ok p1, w1') →
  backupDocument docId text2 w2 = (Ok p2, w2') →
  (p1 = p2 ↔ now w1 = now w2)
  ∧ (now w1 = now w2 → file_at w2' p1 = Some text2)
  ∧ (now w1 ≠ now w2 → file_at w2' p1 = file_at w2 p1).
Proof.
  intros Hfirst Hsecond.
  pose proof (backupDocument_writes _ _ _ _ _ _ _ Hfirst) as [Hp1 _].
  pose proof (backupDocument_writes _ _ _ _ _ _ _ Hsecond) as [Hp2 Hfile2].
  assert (Hsame : p1 = p2 ↔ now w1 = now w2).
  { rewrite Hp1, Hp2. split; [|by intros ->].
    intros [= Heq]. apply (inj (String.app _)) in Heq.
    injection Heq as Heq. rewrite !append_empty_l in Heq.
    apply append_cancel_r in Heq.
    by apply (inj pretty) in Heq. }
  split; [done|]. split.
  - intros Hnow. apply Hsame in Hnow. by rewrite Hnow.
  - intros Hnow. apply (backupDocument_other _ _ _ _ _ _ Hsecond).
    intros Heq. by apply Hnow, Hsame.
Qed.

End Repairs.

(** ** Collection names and the collections of a database *)

Section Names.

Lemma trimEnd_cons (c : ascii) (rest : string) :
  JsText.trimEnd (String c rest) = EmptyString
  ∨ JsText.trimEnd (String c rest) = String c (JsText.trimEnd rest).
Proof.
  simpl. destruct (JsText.trimEnd rest); [|by right].
  destruct (JsString.is_whitespace c); auto.
Qed.

Lemma trimEnd_first (c : ascii) (rest : string) :
  JsString.is_whitespace c = false →
  JsText.trimEnd (String c rest) = String c (JsText.trimEnd rest).
Proof. simpl. intros ->. by destruct (JsText.trimEnd rest). Qed.

Lemma trimStart_nonblank (s : string) :
  JsString.trim_is_empty s = false →
  ∃ c rest, JsText.trimStart s = String c rest ∧ JsString.is_whitespace c = false.
Proof.
  unfold JsString.trim_is_empty.
  induction s as [|c s IH]; simpl; [done|].
  destruct (JsString.is_whitespace c) eqn:Hc; simpl; [done|]. eauto.
Qed.

Lemma trim_nonblank (s : string) :
  JsString.trim_is_empty s = false → JsText.trim s ≠ EmptyString.
Proof.
  intros (c & rest & Hstart & Hc)%trimStart_nonblank.
  unfold JsText.trim. by rewrite Hstart, trimEnd_first.
Qed.

Lemma forall_chars_trim (p : ascii → bool) (s : string) :
  JsString.forall_chars p s = true → JsString.forall_chars p (JsText.trim s) = true.
Proof.
  unfold JsText.trim. intros Hs.
  assert (Hstart : JsString.forall_chars p (JsText.trimStart s) = true).
  { induction s as [|c s IH]; [done|]. simpl.
    destruct (JsString.is_whitespace c); [|done].
    simpl in Hs. apply andb_prop in Hs as [_ Hs]. auto. }
  clear Hs. induction (JsText.trimStart s) as [|c t IH]; [done|].
  simpl in Hstart. apply andb_prop in Hstart as [Hc Ht].
  destruct (trimEnd_cons c t) as [-> | ->]; [done|].
  simpl. rewrite Hc. auto.
Qed.

Lemma length_trim (s : string) :
  (String.length (JsText.trim s) ≤ String.length s)%nat.
Proof.
  unfold JsText.trim.
  assert (Hstart : (String.length (JsText.trimStart s) ≤ String.length s)%nat).
  { induction s as [|c s IH]; [done|]. simpl.
    destruct (JsString.is_whitespace c); simpl; lia. }
  assert (Hend : ∀ t, (String.length (JsText.trimEnd t) ≤ String.length t)%nat).
  { induction t as [|c t IH]; [done|].
    destruct (trimEnd_cons c t) as [-> | ->]; simpl; lia. }
  specialize (Hend (JsText.trimStart s)). lia.
Qed.

Lemma prefix_trimEnd (sub s : string) :
  String.prefix sub (JsText.trimEnd s) = true → String.prefix sub s = true.
Proof.
  revert sub. induction s as [|c s IH]; intros sub; [done|].
  destruct sub as [|a sub]; [done|].
  destruct (trimEnd_cons c s) as [-> | ->]; [done|].
  simpl. destruct (Ascii.ascii_dec a c); [apply IH|done].
Qed.

Lemma includes_empty (s : string) : JsString.includes s EmptyString = true.
Proof. by destruct s. Qed.

Lemma includes_trim (s sub : string) :
  JsString.includes (JsText.trim s) sub = true → JsString.includes s sub = true.
Proof.
  unfold JsText.trim. intros Hin.
  assert (Hend : ∀ t, JsString.includes (JsText.trimEnd t) sub = true →
                      JsString.includes t sub = true).
  { induction t as [|c t IH]; [done|].
    destruct (trimEnd_cons c t) as [Hnil | Hcons].
    - rewrite Hnil. destruct sub; [|done]. intros _. apply includes_empty.
    - rewrite Hcons.
      change (JsString.includes (String c ?u) sub)
        with (String.prefix sub (String c u) || JsString.includes u sub).
      intros [Hpre|Htail]%orb_prop; apply orb_true_iff.
      + left. rewrite <- Hcons in Hpre. by apply prefix_trimEnd.
      + right. by apply IH. }
  apply Hend in Hin. clear Hend.
  induction s as [|c s IH]; [done|].
  simpl in Hin. destruct (JsString.is_whitespace c); [|done].
  change (JsString.includes (String c s) sub)
    with (String.prefix sub (String c s) || JsString.includes s sub).
  apply orb_true_iff. right. by apply IH.
Qed.

Lemma clean_of_some_char (s : string) :
  JsText.some_char Utils.is_separator s = false →
  JsText.some_char Utils.is_reserved s = false →
  Behaviour.clean s = true.
Proof.
  unfold Behaviour.clean.
  induction s as [|c s IH]; simpl; [done|].
  intros [-> Hsep]%orb_false_elim [-> Hres]%orb_false_elim. simpl. auto.
Qed.

Lemma some_char_of_clean (s : string) :
  Behaviour.clean s = true →
  JsText.some_char Utils.is_separator s = false
  ∧ JsText.some_char Utils.is_reserved s = false.
Proof.
  unfold Behaviour.clean.
  induction s as [|c s IH]; simpl; [done|].
  intros [Hc Hs]%andb_prop. apply negb_true_iff, orb_false_elim in Hc as [-> ->].
  by apply IH.
Qed.

Lemma validateCollectionName_inv (collectionName : option value) (valid : string) :
  LocalDB._validateCollectionName collectionName = Ok valid →
  ∃ name, collectionName = Some (JString name)
          ∧ valid = JsText.trim name
          ∧ JsString.trim_is_empty name = false
          ∧ JsText.startsWith name "." = false
          ∧ Behaviour.clean name = true
          ∧ JsString.includes name ".." = false
          ∧ (String.length name ≤ 100)%nat.
Proof.
  unfold LocalDB._validateCollectionName.
  destruct collectionName as [[ | | | name | | ]|]; try done.
  destruct (JsString.trim_is_empty name) eqn:Hblank; [done|].
  destruct (JsText.startsWith name ".") eqn:Hdot; [done|].
  destruct (JsText.some_char Utils.is_separator name) eqn:Hsep; [done|].
  destruct (JsString.includes name "..") eqn:Hdots; [done|].
  destruct (JsText.some_char Utils.is_reserved name) eqn:Hres; [done|].
  simpl. destruct (100 <? String.length name)%nat eqn:Hlen; [done|].
  intros [= <-]. exists name. apply Nat.ltb_ge in Hlen.
  repeat split; try done. by apply clean_of_some_char.
Qed.

(** X24. The name [_validateCollectionName] returns is the trimmed name;
    it is not empty, has no separator, no reserved character and no [..],
    and has at most 100 code units; sanitising it as a document identifier
    would change nothing.  Nothing more is checked: the name may be [.],
    start with a dot or hold a control character. *)
Theorem accepted_collection_name_is_safe (name valid : string) :
  LocalDB._validateCollectionName (Some (JString name)) = Ok valid →
  valid = JsText.trim name
  ∧ valid ≠ EmptyString
  ∧ Behaviour.clean valid = true
  ∧ JsString.includes valid ".." = false
  ∧ (String.length valid ≤ 100)%nat
  ∧ Utils.sanitize valid = valid.
Proof.
  intros (name' & [= <-] & -> & Hblank & _ & Hclean & Hdots & Hlen)%validateCollectionName_inv.
  assert (Hclean' : Behaviour.clean (JsText.trim name) = true)
    by (by apply forall_chars_trim).
  split; [done|]. split; [by apply trim_nonblank|]. split; [done|].
  split; [|split].
  - destruct (JsString.includes (JsText.trim name) "..") eqn:Hin; [|done].
    apply includes_trim in Hin. congruence.
  - pose proof (length_trim name). lia.
  - rewrite sanitize_safe_name. by apply safe_name_of_clean.
Qed.

(** X25. The leading dot is looked for before the name is trimmed, so a
    space in front of it hides it: a name made of a space, a dot and any
    rest that passes the other checks is accepted, and the name returned
    starts with the dot. *)
Theorem leading_space_hides_a_leading_dot (rest : string) :
  Behaviour.clean rest = true →
  JsString.includes (String "." rest) ".." = false →
  (String.length rest ≤ 98)%nat →
  LocalDB._validateCollectionName (Some (JString (String " " (String "." rest))))
  = Ok (String "." (JsText.trimEnd rest)).
Proof.
  intros Hclean Hdots Hlen.
  destruct (some_char_of_clean rest Hclean) as [Hsep Hres].
  unfold LocalDB._validateCollectionName.
  change (JsString.trim_is_empty (String " " (String "." rest))) with false.
  change (JsText.startsWith (String " " (String "." rest)) ".") with false.
  change (JsText.some_char Utils.is_separator (String " " (String "." rest)))
    with (JsText.some_char Utils.is_separator rest).
  change (JsText.some_char Utils.is_reserved (String " " (String "." rest)))
    with (JsText.some_char Utils.is_reserved rest).
  change (JsString.includes (String " " (String "." rest)) "..")
    with (JsString.includes (String "." rest) "..").
  rewrite Hsep, Hres, Hdots. simpl.
  assert (Hshort : (100 <? S (S (String.length rest)))%nat = false)
    by (apply Nat.ltb_ge; lia).
  rewrite Hshort.
  change (JsText.trim (String " " (String "." rest)))
    with (JsText.trimEnd (String "." rest)).
  by rewrite trimEnd_first.
Qed.

End Names.

Section Database.
Context `{Platform}.
Variable dbPath : string.

#[local] Abbreviation newCol := (LocalDB.newCol dbPath).
#[local] Abbreviation getCol := (LocalDB.getCol dbPath).
#[local] Abbreviation new_Collection := (LocalDB.new_Collection dbPath).
#[local] Abbreviation cannot_initialize dir cause :=
  (Error ("Failed to initialize collection directory '" +:+ dir +:+ "': "
          +:+ message cause)).

Lemma nonempty_string_text (s : string) :
  s ≠ EmptyString → CollectionClass.nonempty_string (Some (JString s)) = Some s.
Proof.
  intros Hs. unfold CollectionClass.nonempty_string.
  by apply String.eqb_neq in Hs as ->.
Qed.

Lemma constructor_run (root name : string) (w w' : World) (r : result collection) :
  root ≠ EmptyString → name ≠ EmptyString →
  CollectionClass.constructor (Some (JString root)) (Some (JString name)) w = (r, w') →
  grown w w'
  ∧ match r with
    | Ok this =>
        this = CollectionObject root name (path_join [root; name])
        ∧ is_Some (dirs w' !! path_join [root; name])
    | Throw e => ∃ cause, e = cannot_initialize (path_join [root; name]) cause
    end.
Proof.
  intros Hroot Hname. unfold CollectionClass.constructor.
  rewrite !nonempty_string_text by done.
  unfold fs.existsSync, fs.mkdirSync, fs.statSync_isDirectory.
  unfold_m. set (dir := path_join [root; name]).
  set (w1 := traced (Stat dir) w).
  assert (Hgrown1 : grown w w1) by apply grown_traced.
  destruct (negb _).
  - destruct (fsp.mkdir dir w1) as [[[]|cause] w2] eqn:Hmkdir;
      apply mkdir_run in Hmkdir as [Hgrown2 Hmade];
      intros [= <- <-]; (split; [by apply (grown_trans w w1 w2)|]);
      [auto|by eexists].
  - destruct (stat_run dir w1) as (stat & -> & Hstat).
    assert (Hgrown2 : grown w (traced (Stat dir) w1))
      by (eapply grown_trans; [done|apply grown_traced]).
    destruct stat as [[]|cause]; intros [= <- <-]; (split; [done|]).
    + split; [done|]. by apply Hstat.
    + by exists (Error ("Path for collection '" +:+ name
                        +:+ "' exists but is not a directory: " +:+ dir)).
    + by eexists.
Qed.


Lemma constructor_ok_inv (root name : string) (this : collection) (w w' : World) :
  CollectionClass.constructor (Some (JString root)) (Some (JString name)) w
  = (Ok this, w') →
  this = CollectionObject root name (path_join [root; name])
  ∧ is_Some (dirs w' !! path_join [root; name])
  ∧ ∀ d files, dirs w !! d = Some files → dirs w' !! d = Some files.
Proof.
  destruct (decide (root = EmptyString)) as [->|Hroot]; [done|].
  destruct (decide (name = EmptyString)) as [->|Hname].
  { unfold CollectionClass.constructor. by rewrite nonempty_string_text. }
  intros [Hgrown [-> Hthere]]%constructor_run; [|done..].
  split; [done|]. split; [done|]. intros d files. by apply grown_dir.
Qed.

(** The name [getCol] validates: [default] when none is given. *)
#[local] Abbreviation given collectionName :=
  (match collectionName with
   | None => Some (JString "default")
   | Some name => Some name
   end).

Lemma getCol_inv (collectionName : option value) (cache cache' : gmap string collection)
    (this : collection) (w w' : World) :
  getCol collectionName cache w = (Ok (this, cache'), w') →
  ∃ validName,
    LocalDB._validateCollectionName (given collectionName) = Ok validName
    ∧ match cache !! validName with
      | Some cached => this = cached ∧ cache' = cache ∧ w' = w
      | None =>
          new_Collection validName w = (Ok this, w')
          ∧ cache' = <[validName := this]> cache
      end.
Proof.
  unfold LocalDB.getCol. unfold_m.
  destruct (LocalDB._validateCollectionName _) as [validName|e] eqn:Hvalid.
  - intros Hget. exists validName. split; [by destruct collectionName|].
    destruct (cache !! validName) as [cached|]; [by injection Hget as <- <- <-|].
    destruct (new_Collection validName w) as [[c|e] w1]; [|done].
    by injection Hget as <- <- <-.
  - by destruct collectionName.
Qed.

(** X27. [getCol] hands out one object per name: after a [getCol] that
    returned, every further [getCol] of the same name returns the same
    object from the cache, and touches neither the file system nor the
    console. *)
Theorem getCol_returns_the_cached_object
    (collectionName : option value) (cache cache' : gmap string collection)
    (this : collection) (w w' : World) :
  getCol collectionName cache w = (Ok (this, cache'), w') →
  ∀ w2, getCol collectionName cache' w2 = (Ok (this, cache'), w2).
Proof.
  intros (validName & Hvalid & Hcache)%getCol_inv w2.
  assert (Hcached : cache' !! validName = Some this).
  { destruct (cache !! validName) as [cached|] eqn:Hlookup.
    - by destruct Hcache as (-> & -> & _).
    - destruct Hcache as (_ & ->). by rewrite lookup_insert_eq. }
  unfold LocalDB.getCol. unfold_m.
  replace (LocalDB._validateCollectionName _) with (Ok (A := string) validName)
    by (by destruct collectionName).
  by rewrite Hcached.
Qed.

(** X28. The cache stays a cache of collections of this database: when
    every cached object is the [Collection] of this database under the
    name it is cached by, so it is after [getCol], and the object [getCol]
    returns is the [Collection] of the trimmed name ([default] when no
    name is given). *)
Theorem getCol_returns_the_collection_of_the_trimmed_name
    (collectionName : option value) (cache cache' : gmap string collection)
    (this : collection) (w w' : World) :
  Behaviour.cache_ok dbPath cache →
  getCol collectionName cache w = (Ok (this, cache'), w') →
  Behaviour.cache_ok dbPath cache'
  ∧ ∃ validName,
      LocalDB._validateCollectionName (given collectionName) = Ok validName
      ∧ this = CollectionObject dbPath validName (path_join [dbPath; validName]).
Proof.
  intros Hok (validName & Hvalid & Hcache)%getCol_inv.
  destruct (cache !! validName) as [cached|] eqn:Hlookup.
  - destruct Hcache as (-> & -> & _). split; [done|].
    exists validName. split; [done|]. by apply Hok.
  - destruct Hcache as ((-> & _)%constructor_ok_inv & ->). split.
    + intros name c [[<- <-]|[_ Hin]]%lookup_insert_Some; [done|]. by apply Hok.
    + by exists validName.
Qed.

Lemma newCol_inv (collectionName : option value) (cache cache' : gmap string collection)
    (r : LocalDB.newCol_result) (w w' : World) :
  newCol collectionName cache w = (Ok (r, cache'), w') →
  ∃ validName w1,
    LocalDB._validateCollectionName collectionName = Ok validName
    ∧ Utils.ensureDirExists (path_join [dbPath; validName]) w = (Ok tt, w1)
    ∧ r = LocalDB.NewColResult true validName (path_join [dbPath; validName])
            ("Collection '" +:+ validName +:+ "' ensured.")
    ∧ match cache !! validName with
      | Some cached => cache' = cache ∧ w' = w1
      | None =>
          ∃ this, new_Collection validName w1 = (Ok this, w')
                  ∧ cache' = <[validName := this]> cache
      end.
Proof.
  unfold LocalDB.newCol. unfold_m.
  destruct (LocalDB._validateCollectionName _) as [validName|e] eqn:Hvalid; [|done].
  destruct (Utils.ensureDirExists _ w) as [[[]|e] w1] eqn:Hdir; [|done].
  intros Hnew. exists validName, w1. split; [done|]. split; [done|].
  destruct (cache !! validName) as [cached|]; [by injection Hnew as <- <- <-|].
  destruct (new_Collection validName w1) as [[c|e] w2]; [|done].
  injection Hnew as <- <- <-. split; [done|]. by exists c.
Qed.

Lemma newCol_ensures (collectionName : option value)
    (cache cache' : gmap string collection)
    (r : LocalDB.newCol_result) (w w' : World) :
  newCol collectionName cache w = (Ok (r, cache'), w') →
  ∃ validName,
    LocalDB._validateCollectionName collectionName = Ok validName
    ∧ r = LocalDB.NewColResult true validName (path_join [dbPath; validName])
            ("Collection '" +:+ validName +:+ "' ensured.")
    ∧ is_Some (dirs w' !! path_join [dbPath; validName])
    ∧ (∀ d files, dirs w !! d = Some files → dirs w' !! d = Some files)
    ∧ match cache !! validName with
      | Some cached => cache' = cache
      | None =>
          cache' = <[validName := CollectionObject dbPath validName
                                    (path_join [dbPath; validName])]> cache
      end.
Proof.
  intros (validName & w1 & Hvalid & Hdir & -> & Hcache)%newCol_inv.
  exists validName. split; [done|]. split; [done|].
  apply ensureDirExists_run in Hdir as [Hgrown Hmade].
  destruct (cache !! validName) as [cached|] eqn:Hlookup.
  - destruct Hcache as (-> & ->). split; [done|]. split; [|done].
    intros d files. by apply grown_dir.
  - destruct Hcache as (this & (-> & Hthere & Hkeeps2)%constructor_ok_inv & ->).
    split; [done|]. split; [|done].
    intros d files Hd. apply Hkeeps2. by apply (grown_dir w).
Qed.

(** X29. After [newCol] resolves, the directory of the collection exists,
    every directory that existed holds the files it held, the cache has an
    object under the trimmed name, and the result names the trimmed name
    and the directory. *)
Theorem newCol_ensures_directory_and_object
    (collectionName : option value) (cache cache' : gmap string collection)
    (r : LocalDB.newCol_result) (w w' : World) :
  newCol collectionName cache w = (Ok (r, cache'), w') →
  ∃ validName,
    LocalDB._validateCollectionName collectionName = Ok validName
    ∧ r = LocalDB.NewColResult true validName (path_join [dbPath; validName])
            ("Collection '" +:+ validName +:+ "' ensured.")
    ∧ is_Some (dirs w' !! path_join [dbPath; validName])
    ∧ is_Some (cache' !! validName)
    ∧ ∀ d files, dirs w !! d = Some files → dirs w' !! d = Some files.
Proof.
  intros (validName & Hvalid & -> & Hdir & Hkeeps & Hcache)%newCol_ensures.
  exists validName. repeat (split; [done|]). split; [|done].
  destruct (cache !! validName) as [cached|] eqn:Hlookup; rewrite Hcache.
  - by rewrite Hlookup.
  - by rewrite lookup_insert_eq.
Qed.

(** X30. A collection made by [newCol] is the one [getCol] returns:
    (starting from a cache that holds collections of this database only)
    [getCol] of the same name then returns an object without touching the
    file system, the directory of that object is the one [newCol] reported
    and it exists, and a document that [set] stores through the object is
    a file of that directory. *)
Theorem newCol_then_getCol_gives_the_collection_of_that_directory
    (name : value) (cache cache' : gmap string collection)
    (r : LocalDB.newCol_result) (w w' : World) :
  Behaviour.cache_ok dbPath cache →
  newCol (Some name) cache w = (Ok (r, cache'), w') →
  ∃ this,
    getCol (Some name) cache' w' = (Ok (this, cache'), w')
    ∧ this_collectionPath this = LocalDB.newCol_path r
    ∧ is_Some (dirs w' !! LocalDB.newCol_path r)
    ∧ ∀ (docId : option value) (v : value) (stored : Collection.set_result)
        (w2 : World),
        CollectionClass.set this docId (Data v) w' = (Ok stored, w2) →
        file_at w2 (Path (LocalDB.newCol_path r) (Collection.set_path stored))
        = Some (JSON_stringify v).
Proof.
  intros Hok (validName & Hvalid & -> & Hdir & _ & Hcache)%newCol_ensures.
  set (dir := path_join [dbPath; validName]) in *.
  exists (CollectionObject dbPath validName dir).
  assert (Hcached : cache' !! validName = Some (CollectionObject dbPath validName dir)).
  { destruct (cache !! validName) as [cached|] eqn:Hlookup; rewrite Hcache.
    - rewrite Hlookup. f_equal. by apply Hok.
    - by rewrite lookup_insert_eq. }
  split; [|split; [done|split; [done|]]].
  - unfold LocalDB.getCol. unfold_m. by rewrite Hvalid, Hcached.
  - simpl. intros docId v stored w2 (p & Hp & Hfile & ->)%set_inv.
    pose proof (getDocPath_dirname _ _ _ _ Hp) as Hdirname.
    destruct p as [pdir pname]. simpl in *. by subst pdir.
Qed.

End Database.

(** * The further properties on concrete inputs *)

Ltac decided :=
  match goal with
  | |- ?P => apply (@bool_decide_unpack P _); vm_compute; exact I
  end.

Section Instances.
Import Example.

(** [mkdir] makes the directories above the one it is asked for. *)
Example mkdir_makes_the_parents :
  dirs (Utils.ensureDirExists "db/.backup/users" db_without_collection).2
  = {[ "db" := ∅; "db/.backup" := ∅; "db/.backup/users" := ∅ ]}.
Proof. vm_compute. reflexivity. Qed.

(** A regular file where the collection directory should be. *)
Example regular_file_in_the_way :
  (Utils.ensureDirExists "db/users" db_with_file_users).1
  = Throw (Error "Failed to create directory or path is not a directory: db/users. EEXIST: file already exists, mkdir 'db/users'")
  ∧ (CollectionClass.constructor (Some (JString "db")) (Some (JString "users"))
       db_with_file_users).1
    = Throw (Error "Failed to initialize collection directory 'db/users': Path for collection 'users' exists but is not a directory: db/users")
  ∧ (all None db_with_file_users).1
    = Throw (Error "Failed to read collection 'users': Failed to create directory or path is not a directory: db/users. EEXIST: file already exists, mkdir 'db/users'").
Proof. repeat split; vm_compute; reflexivity. Qed.

(** Writing over a document in a directory that takes no new entry, and
    storing a new one there. *)
Example overwrite_in_a_closed_directory :
  (set (id "x") (Data JNull) Fixture.read_only_db).1
  = Ok (Collection.SetResult true (id "x") "x.json")
  ∧ (set (id "y") (Data JNull) Fixture.read_only_db).1
    = Throw (Error "Failed to set document 'y': EACCES: permission denied, open 'db/users/y.json'. Data was backed up.").
Proof. split; vm_compute; reflexivity. Qed.

(** The identifier [report]. *)
Lemma clean_identifier_witness :
  Behaviour.clean "report" = true
  ∧ JsString.trim_is_empty "report" = false
  ∧ JsString.includes "report" ".." = false
  ∧ (String.length "report" ≤ 200)%nat
  ∧ getDocPath (id "report")
    = Ok (Path (Collection.collectionPath root users) ("report" +:+ ".json")).
Proof.
  assert (Hlen : (String.length "report" ≤ 200)%nat) by (simpl; lia).
  split; [reflexivity|]. split; [reflexivity|]. split; [reflexivity|].
  split; [exact Hlen|].
  exact (clean_identifier_names_its_file root users "report"
           eq_refl eq_refl eq_refl Hlen).
Defined.

(** The identifiers [a/b] and [a\b]: one file, [a_b.json]. *)
Lemma shared_document_witness :
  let p := Path "db/users" "a_b.json" in
  getDocPath (id "a/b") = Ok p
  ∧ getDocPath (id "a\b") = Ok p
  ∧ (p = p ↔ Utils.sanitize "a/b" = Utils.sanitize "a\b")
  ∧ (Utils.sanitize "a/b" = Utils.sanitize "a\b" →
     ∀ (v : value) (w w1 : World) (r : Collection.set_result),
       JSON_parse (JSON_stringify v) = Ok v →
       set (id "a/b") (Data v) w = (Ok r, w1) →
       (get (id "a\b") w1).1 = Ok v).
Proof.
  intros p. split; [reflexivity|]. split; [reflexivity|].
  exact (identifiers_with_one_sanitised_form_share_a_document root users
           "a/b" "a\b" p p eq_refl eq_refl).
Defined.

(** Storing [true] under [x] in an empty collection. *)
Lemma get_after_set_witness :
  let stored := (set (id "x") (Data (JBool true)) empty_db).2 in
  JSON_parse (JSON_stringify (JBool true)) = Ok (JBool true)
  ∧ set (id "x") (Data (JBool true)) empty_db
    = (Ok (Collection.SetResult true (id "x") "x.json"), stored)
  ∧ (get (id "x") stored).1 = Ok (JBool true).
Proof.
  intros stored.
  assert (Hparse : JSON_parse (JSON_stringify (JBool true)) = Ok (JBool true))
    by reflexivity.
  assert (Hset : set (id "x") (Data (JBool true)) empty_db
                 = (Ok (Collection.SetResult true (id "x") "x.json"), stored))
    by (vm_compute; reflexivity).
  split; [exact Hparse|]. split; [exact Hset|].
  exact (get_after_set_returns_the_value root users (id "x") (JBool true)
           empty_db stored _ Hparse Hset).
Defined.

(** Storing [null] under [x] in an empty collection. *)
Lemma set_resolves_witness :
  let r := Collection.SetResult true (id "x") "x.json" in
  let w' := (set (id "x") (Data JNull) empty_db).2 in
  set (id "x") (Data JNull) empty_db = (Ok r, w')
  ∧ ∃ p files,
      getDocPath (id "x") = Ok p
      ∧ dirs empty_db !! Collection.collectionPath root users = Some files
      ∧ dirs w'
        = <[Collection.collectionPath root users
            := <[basename p := JSON_stringify JNull]> files]> (dirs empty_db)
      ∧ r = Collection.SetResult true (id "x") (basename p).
Proof.
  intros r w'.
  assert (Hset : set (id "x") (Data JNull) empty_db = (Ok r, w'))
    by (vm_compute; reflexivity).
  split; [exact Hset|].
  exact (set_resolves_only_in_an_existing_directory root users (id "x") JNull r
           empty_db w' Hset).
Defined.

(** Storing under [x] next to the document [a]. *)
Lemma set_leaves_others_witness :
  let p := Path "db/users" "x.json" in
  let w' := (set (id "x") (Data JNull) db_with_files).2 in
  set (id "x") (Data JNull) db_with_files
  = (Ok (Collection.SetResult true (id "x") "x.json"), w')
  ∧ getDocPath (id "x") = Ok p
  ∧ (∀ p', p' ≠ p → file_at w' p' = file_at db_with_files p')
  ∧ ∀ docId' p', getDocPath docId' = Ok p' → p' ≠ p →
                 (get docId' w').1 = (get docId' db_with_files).1.
Proof.
  intros p w'.
  assert (Hset : set (id "x") (Data JNull) db_with_files
                 = (Ok (Collection.SetResult true (id "x") "x.json"), w'))
    by (vm_compute; reflexivity).
  split; [exact Hset|]. split; [reflexivity|].
  exact (set_leaves_other_documents root users (id "x") JNull p db_with_files w' _
           Hset eq_refl).
Defined.

(** Deleting the document [a]. *)
Lemma del_removes_witness :
  let p := Path "db/users" "a.json" in
  getDocPath (id "a") = Ok p
  ∧ file_at db_with_files p = Some "true"
  ∧ (dirname p ∉ denied db_with_files)
  ∧ ∃ w', del (id "a") db_with_files
          = (Ok (Collection.DelResult true (id "a") None), w')
          ∧ file_at w' p = None
          ∧ (get (id "a") w').1 = Ok JNull
          ∧ ∀ p', p' ≠ p → file_at w' p' = file_at db_with_files p'.
Proof.
  intros p.
  assert (Hfile : file_at db_with_files p = Some "true") by (vm_compute; reflexivity).
  assert (Hfree : dirname p ∉ denied db_with_files) by decided.
  split; [reflexivity|]. split; [exact Hfile|]. split; [exact Hfree|].
  exact (del_removes_exactly_the_document root users (id "a") p "true"
           db_with_files eq_refl Hfile Hfree).
Defined.

(** Deleting the document [x] of a collection that may not be changed. *)
Lemma del_denied_witness :
  let p := Path "db/users" "x.json" in
  getDocPath (id "x") = Ok p
  ∧ file_at Fixture.read_only_db p = Some "true"
  ∧ (dirname p ∈ denied Fixture.read_only_db)
  ∧ ∃ w', del (id "x") Fixture.read_only_db
          = (Throw (Error ("Failed to delete document '" +:+ "x" +:+ "': "
                           +:+ message (fsp.EACCES "unlink" (path_text p)))), w')
          ∧ file_at w' p = Some "true".
Proof.
  intros p.
  assert (Hfile : file_at Fixture.read_only_db p = Some "true")
    by (vm_compute; reflexivity).
  assert (Hdenied : dirname p ∈ denied Fixture.read_only_db) by decided.
  split; [reflexivity|]. split; [exact Hfile|]. split; [exact Hdenied|].
  exact (del_in_denied_directory_throws root users "x" p "true"
           Fixture.read_only_db eq_refl Hfile Hdenied).
Defined.




(** The text [true] parses. *)
Lemma silent_decoding_witness :
  (∀ e, JSON_parse "true" = Throw e → is_SyntaxError e = false)
  ∧ Utils.tryRepairAndParseJson "true" "db/users/a.json" db_with_files
    = (JSON_parse "true", db_with_files).
Proof.
  assert (Hparses : ∀ e, JSON_parse "true" = Throw e → is_SyntaxError e = false)
    by (intros e He; discriminate He).
  split; [exact Hparses|].
  exact (decoding_is_silent_without_a_syntax_error "true" "db/users/a.json"
           db_with_files Hparses).
Defined.

(** Two backups of [x], one millisecond apart. *)
Lemma backups_witness :
  let w1 := db_without_collection in
  let p1 := Path "db/.backup/users" "x_1700000000000.json.bak" in
  let p2 := Path "db/.backup/users" "x_1700000000001.json.bak" in
  let w1' := (Utils.backupDocument root users "x" "null" w1).2 in
  let w2 := Fixture.later w1' in
  let w2' := (Utils.backupDocument root users "x" "true" w2).2 in
  Utils.backupDocument root users "x" "null" w1 = (Ok p1, w1')
  ∧ Utils.backupDocument root users "x" "true" w2 = (Ok p2, w2')
  ∧ (p1 = p2 ↔ now w1 = now w2)
  ∧ (now w1 = now w2 → file_at w2' p1 = Some "true")
  ∧ (now w1 ≠ now w2 → file_at w2' p1 = file_at w2 p1).
Proof.
  intros w1 p1 p2 w1' w2 w2'.
  assert (Hfirst : Utils.backupDocument root users "x" "null" w1 = (Ok p1, w1'))
    by (vm_compute; reflexivity).
  assert (Hsecond : Utils.backupDocument root users "x" "true" w2 = (Ok p2, w2'))
    by (vm_compute; reflexivity).
  split; [exact Hfirst|]. split; [exact Hsecond|].
  exact (backups_are_told_apart_by_the_clock root users "x" "null" "true"
           w1 w1' w2 w2' p1 p2 Hfirst Hsecond).
Defined.

(** The name [users] between two spaces. *)
Lemma accepted_name_witness :
  LocalDB._validateCollectionName (Some (JString " users ")) = Ok "users"
  ∧ "users" = JsText.trim " users "
  ∧ "users" ≠ EmptyString
  ∧ Behaviour.clean "users" = true
  ∧ JsString.includes "users" ".." = false
  ∧ (String.length "users" ≤ 100)%nat
  ∧ Utils.sanitize "users" = "users".
Proof.
  split; [reflexivity|].
  exact (accepted_collection_name_is_safe " users " "users" eq_refl).
Defined.

(** The name [.hidden] behind a space. *)
Lemma hidden_dot_witness :
  Behaviour.clean "hidden" = true
  ∧ JsString.includes ".hidden" ".." = false
  ∧ (String.length "hidden" ≤ 98)%nat
  ∧ LocalDB._validateCollectionName (Some (JString " .hidden"))
    = Ok (String "." (JsText.trimEnd "hidden")).
Proof.
  assert (Hlen : (String.length "hidden" ≤ 98)%nat) by (simpl; lia).
  split; [reflexivity|]. split; [reflexivity|]. split; [exact Hlen|].
  exact (leading_space_hides_a_leading_dot "hidden" eq_refl eq_refl Hlen).
Defined.


(** [getCol] of [users], written between two spaces, in a new database. *)
Lemma getCol_cached_witness :
  let this := CollectionObject "db" "users" "db/users" in
  let cache' : gmap string collection := {[ "users" := this ]} in
  let w' := (LocalDB.getCol root (id " users ") ∅ db_without_collection).2 in
  LocalDB.getCol root (id " users ") ∅ db_without_collection
  = (Ok (this, cache'), w')
  ∧ ∀ w2, LocalDB.getCol root (id " users ") cache' w2 = (Ok (this, cache'), w2).
Proof.
  intros this cache' w'.
  assert (Hget : LocalDB.getCol root (id " users ") ∅ db_without_collection
                 = (Ok (this, cache'), w')) by (vm_compute; reflexivity).
  split; [exact Hget|].
  exact (getCol_returns_the_cached_object root (id " users ") ∅ cache' this
           db_without_collection w' Hget).
Defined.

Lemma getCol_trimmed_witness :
  let this := CollectionObject "db" "users" "db/users" in
  let cache' : gmap string collection := {[ "users" := this ]} in
  let w' := (LocalDB.getCol root (id " users ") ∅ db_without_collection).2 in
  Behaviour.cache_ok root ∅
  ∧ LocalDB.getCol root (id " users ") ∅ db_without_collection
    = (Ok (this, cache'), w')
  ∧ Behaviour.cache_ok root cache'
  ∧ ∃ validName,
      LocalDB._validateCollectionName (id " users ") = Ok validName
      ∧ this = CollectionObject root validName (path_join [root; validName]).
Proof.
  intros this cache' w'.
  assert (Hok : Behaviour.cache_ok root ∅)
    by (intros name c Hin; rewrite lookup_empty in Hin; discriminate Hin).
  assert (Hget : LocalDB.getCol root (id " users ") ∅ db_without_collection
                 = (Ok (this, cache'), w')) by (vm_compute; reflexivity).
  split; [exact Hok|]. split; [exact Hget|].
  exact (getCol_returns_the_collection_of_the_trimmed_name root (id " users ")
           ∅ cache' this db_without_collection w' Hok Hget).
Defined.

(** [newCol] of [users] in a new database. *)
Lemma newCol_witness :
  let this := CollectionObject "db" "users" "db/users" in
  let cache' : gmap string collection := {[ "users" := this ]} in
  let r := LocalDB.NewColResult true "users" "db/users" "Collection 'users' ensured." in
  let w' := (LocalDB.newCol root (id "users") ∅ db_without_collection).2 in
  LocalDB.newCol root (id "users") ∅ db_without_collection = (Ok (r, cache'), w')
  ∧ ∃ validName,
      LocalDB._validateCollectionName (id "users") = Ok validName
      ∧ r = LocalDB.NewColResult true validName (path_join [root; validName])
              ("Collection '" +:+ validName +:+ "' ensured.")
      ∧ is_Some (dirs w' !! path_join [root; validName])
      ∧ is_Some (cache' !! validName)
      ∧ ∀ d files, dirs db_without_collection !! d = Some files →
                   dirs w' !! d = Some files.
Proof.
  intros this cache' r w'.
  assert (Hnew : LocalDB.newCol root (id "users") ∅ db_without_collection
                 = (Ok (r, cache'), w')) by (vm_compute; reflexivity).
  split; [exact Hnew|].
  exact (newCol_ensures_directory_and_object root (id "users") ∅ cache' r
           db_without_collection w' Hnew).
Defined.

Lemma newCol_then_getCol_witness :
  let this := CollectionObject "db" "users" "db/users" in
  let cache' : gmap string collection := {[ "users" := this ]} in
  let r := LocalDB.NewColResult true "users" "db/users" "Collection 'users' ensured." in
  let w' := (LocalDB.newCol root (id "users") ∅ db_without_collection).2 in
  Behaviour.cache_ok root ∅
  ∧ LocalDB.newCol root (id "users") ∅ db_without_collection = (Ok (r, cache'), w')
  ∧ ∃ this,
      LocalDB.getCol root (id "users") cache' w' = (Ok (this, cache'), w')
      ∧ this_collectionPath this = LocalDB.newCol_path r
      ∧ is_Some (dirs w' !! LocalDB.newCol_path r)
      ∧ ∀ (docId : option value) (v : value) (stored : Collection.set_result)
          (w2 : World),
          CollectionClass.set this docId (Data v) w' = (Ok stored, w2) →
          file_at w2 (Path (LocalDB.newCol_path r) (Collection.set_path stored))
          = Some (JSON_stringify v).
Proof.
  intros this cache' r w'.
  assert (Hok : Behaviour.cache_ok root ∅)
    by (intros name c Hin; rewrite lookup_empty in Hin; discriminate Hin).
  assert (Hnew : LocalDB.newCol root (id "users") ∅ db_without_collection
                 = (Ok (r, cache'), w')) by (vm_compute; reflexivity).
  split; [exact Hok|]. split; [exact Hnew|].
  exact (newCol_then_getCol_gives_the_collection_of_that_directory root
           (JString "users") ∅ cache' r db_without_collection w' Hok Hnew).
Defined.

End Instances.

Section Library.
Import Fixture.

(** The books among a book and a flag. *)
Lemma filtered_scan_witness :
  Collection.search_of books_query = Some books_only
  ∧ dirs library !! Collection.collectionPath root books = Some shelf
  ∧ (all None library).1 = Ok [JBool true; book]
  ∧ (all books_query library).1
    = Behaviour.select books_only [JBool true; book] [].
Proof.
  assert (Hdir : dirs library !! Collection.collectionPath root books = Some shelf)
    by (vm_compute; reflexivity).
  assert (Hevery : (all None library).1 = Ok [JBool true; book])
    by (vm_compute; reflexivity).
  split; [reflexivity|]. split; [exact Hdir|]. split; [exact Hevery|].
  exact (filtered_scan_is_the_filter_over_the_unfiltered_scan root books
           books_query books_only shelf library [JBool true; book]
           eq_refl Hdir Hevery).
Defined.

Lemma query_leaves_out_witness :
  dirs library !! Collection.collectionPath root books = Some shelf
  ∧ (all books_query library).1 = Ok [book]
  ∧ ∃ every, (all None library).1 = Ok every ∧ sublist [book] every.
Proof.
  assert (Hdir : dirs library !! Collection.collectionPath root books = Some shelf)
    by (vm_compute; reflexivity).
  assert (Hkept : (all books_query library).1 = Ok [book])
    by (vm_compute; reflexivity).
  split; [exact Hdir|]. split; [exact Hkept|].
  exact (query_only_leaves_documents_out root books books_query shelf library
           [book] Hdir Hkept).
Defined.

(** The book and the query for books. *)
Lemma filter_conjunction_witness :
  Spec.shadow_free book = true
  ∧ ∃ b, Collection.matchesQuery books_only book = Ok b
         ∧ (b = true ↔
            Behaviour.fields_hold Spec.Matches [("category", JString "Books")]
              (Behaviour.block_fields (JsProp.property books_only "match"))
            ∧ Behaviour.fields_hold Spec.Likes [("category", JString "Books")]
                (Behaviour.block_fields (JsProp.property books_only "like"))).
Proof.
  split; [reflexivity|].
  exact (filter_is_the_conjunction_of_its_blocks books_only
           [("category", JString "Books")] eq_refl).
Defined.

(** The document with a field named [hasOwnProperty] and the query for
    books. *)
Lemma filter_throws_witness :
  Js.own_property [("hasOwnProperty", JBool true)] "hasOwnProperty"
  = Some (JBool true)
  ∧ (Behaviour.block_fields (JsProp.property books_only "match") ≠ []
     ∨ Behaviour.block_fields (JsProp.property books_only "like") ≠ [])
  ∧ Collection.matchesQuery books_only hidden
    = Throw (TypeError "docContent.hasOwnProperty is not a function").
Proof.
  assert (Hfields : Behaviour.block_fields (JsProp.property books_only "match") ≠ []
                    ∨ Behaviour.block_fields (JsProp.property books_only "like") ≠ [])
    by (left; discriminate).
  split; [reflexivity|]. split; [exact Hfields|].
  exact (filter_throws_on_a_document_with_a_hasOwnProperty_field books_only
           [("hasOwnProperty", JBool true)] (JBool true) eq_refl Hfields).
Defined.

Lemma failing_scan_witness :
  dirs library_with_hidden !! Collection.collectionPath root books
  = Some shelf_with_hidden
  ∧ shelf_with_hidden !! "h.json" = Some hidden_text
  ∧ JsString.endsWith "h.json" ".json" = true
  ∧ Spec.decode hidden_text = Ok hidden
  ∧ Js.own_property [("hasOwnProperty", JBool true)] "hasOwnProperty"
    = Some (JBool true)
  ∧ Collection.search_of books_query = Some books_only
  ∧ (Behaviour.block_fields (JsProp.property books_only "match") ≠ []
     ∨ Behaviour.block_fields (JsProp.property books_only "like") ≠ [])
  ∧ ∃ e, (all books_query library_with_hidden).1 = Throw e.
Proof.
  assert (Hdir : dirs library_with_hidden !! Collection.collectionPath root books
                 = Some shelf_with_hidden) by (vm_compute; reflexivity).
  assert (Hfile : shelf_with_hidden !! "h.json" = Some hidden_text)
    by (vm_compute; reflexivity).
  assert (Hdecode : Spec.decode hidden_text = Ok hidden) by (vm_compute; reflexivity).
  assert (Hfields : Behaviour.block_fields (JsProp.property books_only "match") ≠ []
                    ∨ Behaviour.block_fields (JsProp.property books_only "like") ≠ [])
    by (left; discriminate).
  split; [exact Hdir|]. split; [exact Hfile|]. split; [reflexivity|].
  split; [exact Hdecode|]. split; [reflexivity|]. split; [reflexivity|].
  split; [exact Hfields|].
  exact (one_document_fails_every_filtering_scan root books books_query books_only
           shelf_with_hidden "h.json" hidden_text [("hasOwnProperty", JBool true)]
           (JBool true) library_with_hidden
           Hdir Hfile eq_refl Hdecode eq_refl eq_refl Hfields).
Defined.

(** The document [x] written as the Python constant [True]. *)
Lemma get_repairs_witness :
  let p := Path "db/books" "x.json" in
  let parseError := SyntaxError "Unexpected token in JSON: True" in
  let w := library_with_python in
  getDocPath (id "x") = Ok p
  ∧ file_at w p = Some "True"
  ∧ JSON_parse "True" = Throw parseError
  ∧ is_SyntaxError parseError = true
  ∧ jsonrepair "True" = Ok "true"
  ∧ JSON_parse "true" = Ok (JBool true)
  ∧ (get (id "x") w).1 = Ok (JBool true)
  ∧ file_at (get (id "x") w).2 p = Some "True"
  ∧ console (get (id "x") w).2
    = (console w
       ++ [(Warn, "Corrupted JSON content detected in " +:+ path_text p
                  +:+ ". Attempting repair.");
           (Warn, "JSON content in " +:+ path_text p
                  +:+ " successfully repaired.")])%list.
Proof.
  intros p parseError w.
  assert (Hfile : file_at w p = Some "True") by (vm_compute; reflexivity).
  split; [reflexivity|]. split; [exact Hfile|]. split; [reflexivity|].
  split; [reflexivity|]. split; [reflexivity|]. split; [reflexivity|].
  exact (get_repairs_in_memory_only root books (id "x") p "True" "true" parseError
           (JBool true) w eq_refl Hfile eq_refl eq_refl eq_refl eq_refl).
Defined.

End Library.
